(** * heyvr-cli: the publish script [src/index.js]

    A shallow embedding of [main] and of the Node.js primitives it calls,
    followed by the properties of the command that the specification states.

    Strings are Rocq [string]s holding the bytes of the command line as the
    operating system passes them (UTF-8).  Every needle the script searches
    for is ASCII, so suffix tests on bytes and on UTF-16 code units agree. *)

From stdpp Require Import gmap strings list.
From Stdlib Require Import ZArith Lia Ascii DecimalString DecimalNat.

Local Open Scope Z_scope.

(** ** JavaScript primitives *)

Module JS.

(** Truthiness of a value that is either [undefined] or a string: only a
    non-empty string is truthy. *)
Definition truthy (v : option string) : bool :=
  match v with
  | Some s => negb (String.eqb s "")
  | None => false
  end.

(** [String.prototype.endsWith(searchString)] with no end position: the
    comparison window starts at [len - searchLength]; a negative start gives
    [false]. *)
Definition endsWith (s searchString : string) : bool :=
  let len := Z.of_nat (String.length s) in
  let searchLength := Z.of_nat (String.length searchString) in
  let start := len - searchLength in
  if start <? 0 then false
  else String.eqb
         (String.substring (Z.to_nat start) (Z.to_nat searchLength) s)
         searchString.

(** The line feed that a script writes as a backslash followed by [n]. *)
Definition LF : string := String (ascii_of_nat 10) "".

(** [String.prototype.startsWith(searchString)]. *)
Definition startsWith (s searchString : string) : bool :=
  String.prefix searchString s.

(** [ToString] of a non-negative integer ([errors.length], the number [1],
    an HTTP status code). *)
Definition nat_to_string (n : nat) : string :=
  NilZero.string_of_uint (Nat.to_uint n).

(** *** [Number.parseInt]

    The result is [NaN], an infinity, or the Number value for an integer;
    [-0] and [+0] are both [Num 0] (they print alike).  [parseInt] only
    returns [Num z] for a [z] that a double holds exactly. *)
Inductive Number : Type :=
| NaN
| Num (z : Z)
| Infinity (negative : bool).

(** The Number value for a mathematical integer: the integer itself below
    2^53, otherwise the nearest double with 53 significant bits, ties going
    to the even one, and an infinity from 2^1024 on. *)
Definition toNumber (z : Z) : Number :=
  let m := Z.abs z in
  if m <? 9007199254740992 then Num z
  else
    let e := Z.log2 m - 52 in
    let q := m / 2 ^ e in
    let r := m mod 2 ^ e in
    let half := 2 ^ (e - 1) in
    let q := if (half <? r) || ((r =? half) && Z.odd q) then q + 1 else q in
    let v := q * 2 ^ e in
    if 2 ^ 1024 <=? v then Infinity (z <? 0) else Num (Z.sgn z * v).

(** The argument of [parseInt] in [main] is a string or the number [1]. *)
Inductive value : Type :=
| VString (s : string)
| VNumber (n : nat).

Definition ToString (v : value) : string :=
  match v with
  | VString s => s
  | VNumber n => nat_to_string n
  end.

Definition code (c : ascii) : Z := Z.of_nat (nat_of_ascii c).

(** One leading WhiteSpace or LineTerminator code point, in UTF-8: returns
    what follows it.  U+0009..U+000D, U+0020, U+00A0, U+1680,
    U+2000..U+200A, U+2028, U+2029, U+202F, U+205F, U+3000, U+FEFF. *)
Definition skipWhiteSpace (s : string) : option string :=
  match s with
  | String a r1 =>
    let a := code a in
    if ((9 <=? a) && (a <=? 13)) || (a =? 32) then Some r1
    else match r1 with
    | String b r2 =>
      let b := code b in
      if (a =? 194) && (b =? 160) then Some r2
      else match r2 with
      | String c r3 =>
        let c := code c in
        if (a =? 225) && (b =? 154) && (c =? 128) then Some r3
        else if (a =? 226) && (b =? 128)
                && (((128 <=? c) && (c <=? 138)) || (c =? 168) || (c =? 169)
                    || (c =? 175)) then Some r3
        else if (a =? 226) && (b =? 129) && (c =? 159) then Some r3
        else if (a =? 227) && (b =? 128) && (c =? 128) then Some r3
        else if (a =? 239) && (b =? 187) && (c =? 191) then Some r3
        else None
      | EmptyString => None
      end
    | EmptyString => None
    end
  | EmptyString => None
  end.

Fixpoint trimStart_from (fuel : nat) (s : string) : string :=
  match fuel with
  | O => s
  | S fuel =>
    match skipWhiteSpace s with
    | Some rest => trimStart_from fuel rest
    | None => s
    end
  end.

(** [TrimString(s, start)]: every step removes at least one byte, so the
    length of [s] is enough fuel. *)
Definition trimStart (s : string) : string :=
  trimStart_from (String.length s) s.

(** The value of a radix-[R] digit, for [R] at most 36. *)
Definition digitValue (R : Z) (c : ascii) : option Z :=
  let n := code c in
  let d := if (48 <=? n) && (n <=? 57) then Some (n - 48)
           else if (97 <=? n) && (n <=? 122) then Some (n - 87)
           else if (65 <=? n) && (n <=? 90) then Some (n - 55)
           else None in
  match d with
  | Some v => if v <? R then Some v else None
  | None => None
  end.

(** The integer written by the longest prefix of radix-[R] digits; [acc] is
    [None] until a digit has been read. *)
Fixpoint readDigits (R : Z) (s : string) (acc : option Z) : option Z :=
  match s with
  | String c rest =>
    match digitValue R c with
    | Some v =>
      readDigits R rest (Some (match acc with Some a => a * R + v | None => v end))
    | None => acc
    end
  | EmptyString => acc
  end.

(** [Number.parseInt(v)] with no radix. *)
Definition parseInt (v : value) : Number :=
  let inputString := ToString v in
  let S := trimStart inputString in
  let sign := if startsWith S "-" then -1 else 1 in
  let S := if startsWith S "+" || startsWith S "-"
           then String.substring 1 (String.length S - 1) S else S in
  let hex := startsWith S "0x" || startsWith S "0X" in
  let R := if hex then 16 else 10 in
  let S := if hex then String.substring 2 (String.length S - 2) S else S in
  match readDigits R S None with
  | None => NaN
  | Some mathInt => toNumber (sign * mathInt)
  end.

End JS.

(** ** The version classifier (index.js, lines 123-128)

    [let version = 'patch'; if (a.endsWith('.0.0')) version = 'major';
     else if (a.endsWith('.0')) version = 'minor';] for the string [a] the
    script inspects. *)
Definition classify (a : string) : string :=
  if JS.endsWith a ".0.0" then "major"
  else if JS.endsWith a ".0" then "minor"
  else "patch".

(** The declarative reading of "ends with": some prefix followed by the
    suffix. *)
Definition has_suffix (suffix s : string) : Prop :=
  exists front, s = front +:+ suffix.

(** ** Effects

    A run of the script leaves a trace of observable events and completes
    normally, through [process.exit], or with an exception nobody catches. *)

Inductive exception : Type :=
| ERR_PARSE_ARGS_UNKNOWN_OPTION (rawName : string)
| ERR_PARSE_ARGS_INVALID_OPTION_VALUE (message : string)
| ERR_PARSE_ARGS_UNEXPECTED_POSITIONAL (positional : string)
| TypeError (message : string).

Inductive completion (A : Type) : Type :=
| Normal (a : A)
| Exited (exitCode : Z)
| Thrown (e : exception).
Arguments Normal {A} a.
Arguments Exited {A} exitCode.
Arguments Thrown {A} e.

Definition Buffer : Type := list Byte.byte.

(** The fields appended to the [FormData]. *)
Inductive fieldValue : Type :=
| Text (s : string)
| File (content : Buffer) (filename : string)
| Numeric (n : JS.Number).

Record request : Type := {
  method : string;
  url : string;
  data : list (string * fieldValue);
  headers : list (string * string);
}.

Inductive event : Type :=
| console_log (args : list string)
| console_error (args : list string)
| archive_directory (path : option string)
| axios (config : request).

Definition Proc (A : Type) : Type := list event * completion A.

(** [Proc] is a monad; stdpp's notations [x ← m; k] and [m;; k] sequence
    statements, and a run that has exited or thrown skips what follows. *)
#[global] Instance Proc_ret : MRet Proc := fun A a => ([], Normal a).

#[global] Instance Proc_bind : MBind Proc := fun A B k m =>
  match m.2 with
  | Normal a => (m.1 ++ (k a).1, (k a).2)
  | Exited c => (m.1, Exited c)
  | Thrown e => (m.1, Thrown e)
  end.

Definition emit (e : event) : Proc unit := ([e], Normal tt).
Definition throw {A} (e : exception) : Proc A := ([], Thrown e).
Definition process_exit {A} (exitCode : Z) : Proc A := ([], Exited exitCode).

Fixpoint forEach {A} (f : A -> Proc unit) (l : list A) : Proc unit :=
  match l with
  | [] => mret tt
  | x :: l => f x;; forEach f l
  end.

(** What the operating system reports when the process is over: the
    argument of [process.exit], [0] when the script runs to its end, and [1]
    when an exception or a promise rejection is left unhandled. *)
Definition exitCode {A} (run : Proc A) : Z :=
  match run.2 with
  | Normal _ => 0
  | Exited c => c
  | Thrown _ => 1
  end.

Definition trace {A} (run : Proc A) : list event := run.1.

(** The lines on standard error that report the array [errors]
    (lines 115-118). *)
Definition errorReport (errors : list string) : list event :=
  console_error ["Found " +:+ JS.nat_to_string (length errors) +:+ " errors:"]
  :: map (fun e => console_error ["✘ " +:+ e]) errors.

(** ** [util.parseArgs] for the options of [main]

    [parseArgs({ options })] with the defaults [strict: true] and
    [allowPositionals: false].  The table [options] of [main] declares four
    options, all of type ['string'], none with a short alias, a default or
    [multiple]. *)

Module NodeUtil.

Definition options : list string := ["version"; "path"; "gameId"; "sdkVersion"].

(** [optionsGetOwn(options, longOption, 'type') === 'string'] *)
Definition isStringOption (longOption : string) : bool :=
  bool_decide (longOption ∈ options).

Inductive token : Type :=
| option_terminator
| positional (value : string)
| option_token (name rawName : string) (value : option string) (inlineValue : bool).

Definition charAt (s : string) (i : nat) : string := String.substring i 1 s.

(** [arg.length >= 2 && arg[0] === '-' && arg[1] !== '-'], the shape shared
    by [isLoneShortOption], [isShortOptionGroup] and [isShortOptionAndValue].
    No option of the table has a short alias, so the first letter names an
    unknown boolean option; the letters after it in a group are unknown as
    well and are left out of the token list. *)
Definition isShortOption (arg : string) : bool :=
  (2 <=? String.length arg)%nat && String.eqb (charAt arg 0) "-"
  && negb (String.eqb (charAt arg 1) "-").

Definition includesFrom (arg searchString : string) (position : nat) : bool :=
  match String.index position searchString arg with
  | Some _ => true
  | None => false
  end.

Definition isLoneLongOption (arg : string) : bool :=
  (2 <? String.length arg)%nat && JS.startsWith arg "--"
  && negb (includesFrom arg "=" 3).

Definition isLongOptionAndValue (arg : string) : bool :=
  (2 <? String.length arg)%nat && JS.startsWith arg "--"
  && includesFrom arg "=" 3.

Fixpoint argsToTokens (args : list string) : list token :=
  match args with
  | [] => []
  | arg :: remainingArgs =>
    if String.eqb arg "--" then
      option_terminator :: map positional remainingArgs
    else if isShortOption arg then
      option_token (charAt arg 1) ("-" +:+ charAt arg 1) None false
        :: argsToTokens remainingArgs
    else if isLoneLongOption arg then
      let longOption := String.substring 2 (String.length arg - 2) arg in
      match isStringOption longOption, remainingArgs with
      | true, nextArg :: remainingArgs' =>
        option_token longOption arg (Some nextArg) false
          :: argsToTokens remainingArgs'
      | _, _ =>
        option_token longOption arg None false :: argsToTokens remainingArgs
      end
    else if isLongOptionAndValue arg then
      let equalIndex := default 0%nat (String.index 0 "=" arg) in
      let longOption := String.substring 2 (equalIndex - 2) arg in
      let value := String.substring (equalIndex + 1)
                     (String.length arg - (equalIndex + 1)) arg in
      option_token longOption ("--" +:+ longOption) (Some value) true
        :: argsToTokens remainingArgs
    else
      positional arg :: argsToTokens remainingArgs
  end.

(** [value.length > 1 && value[0] === '-'] *)
Definition isOptionLikeValue (value : string) : bool :=
  (1 <? String.length value)%nat && String.eqb (charAt value 0) "-".

(** The second phase: [checkOptionUsage], [checkOptionLikeValue] and
    [storeOption] for each option token, and the refusal of positionals.
    The first offending token decides the error that is thrown. *)
Fixpoint storeTokens (tokens : list token) (values : gmap string string)
  : exception + gmap string string :=
  match tokens with
  | [] => inr values
  | option_terminator :: tokens => storeTokens tokens values
  | positional value :: _ => inl (ERR_PARSE_ARGS_UNEXPECTED_POSITIONAL value)
  | option_token name rawName value inlineValue :: tokens =>
    if negb (isStringOption name) then
      inl (ERR_PARSE_ARGS_UNKNOWN_OPTION rawName)
    else match value with
    | None =>
      inl (ERR_PARSE_ARGS_INVALID_OPTION_VALUE
             ("Option '--" +:+ name +:+ " <value>' argument missing"))
    | Some v =>
      if negb inlineValue && isOptionLikeValue v then
        inl (ERR_PARSE_ARGS_INVALID_OPTION_VALUE
               ("Option '" +:+ rawName +:+ "' argument is ambiguous." +:+ JS.LF
                +:+ "Did you forget to specify the option argument for '"
                +:+ rawName +:+ "'?" +:+ JS.LF
                +:+ "To specify an option argument starting with a dash use '"
                +:+ rawName +:+ "=-XYZ'."))
      else storeTokens tokens (<[name := v]> values)
    end
  end.

Definition parseArgs (args : list string) : exception + gmap string string :=
  storeTokens (argsToTokens args) ∅.

End NodeUtil.

(** ** The world around one run *)

(** What the server does with the upload: an HTTP response, or none at all
    (the request fails on the way; [error] is [error.toString()]). *)
Inductive reply : Type :=
| response (status : nat) (statusText body : string)
| no_response (error : string).

Record World : Type := {
  (** [process.argv]: the interpreter, the script, then the arguments. *)
  process_argv : list string;
  (** [process.env.HEYVR_ACCESS_TOKEN] *)
  process_env_HEYVR_ACCESS_TOKEN : option string;
  (** [fs.existsSync] *)
  fs_existsSync : string -> bool;
  (** The ['data'] chunks the archive stream emits for a directory, and the
      ['error'] that ends it instead of ['end'], if any. *)
  archiver : option string -> list Buffer * option string;
  (** The remote endpoint. *)
  server : request -> reply;
  (** What [onUploadProgress] prints for a request: the values of
      [100*e.progress.toFixed(2)], as printed, of the progress events that
      arrive before the request settles, and of those that arrive after its
      handler has returned. *)
  uploadProgress : request -> list string * list string;
}.

(** ** index.js *)

(** [zipDeployFolder(path)], lines 40-66: the promise is rejected with the
    archive's error, or resolved with [Buffer.concat(buffers)] at ['end'].
    [inl] is a rejection. *)
Definition zipDeployFolder (w : World) (path : option string)
  : Proc (string + Buffer) :=
  emit (archive_directory path);;
  let '(buffers, error) := archiver w path in
  match error with
  | Some e => mret (inl e)
  | None => mret (inr (concat buffers))
  end.

(** [printUsage()], lines 68-80. *)
Definition printUsage : Proc unit :=
  emit (console_log [""]);;
  emit (console_log ["# Usage"]);;
  emit (console_log ["heyvr --version <version> --gameId <gameId>"]);;
  emit (console_log [""]);;
  emit (console_log ["version  x.y.z, converted into 'minor'/'major'/'patch'."]);;
  emit (console_log ["gameId   Game ID for heyVR."]);;
  emit (console_log ["path     Path to the game, index.html required at root."]);;
  emit (console_log ["         Default deploy/ or public/."]);;
  emit (console_log [""]);;
  emit (console_log ["The command expects 'HEYVR_ACCESS_TOKEN' environment"]);;
  emit (console_log ["variable for authentication."]).

(** The messages pushed to [errors]. *)
Definition missingVersion : string := "Missing 'version' argument.".
Definition missingGameId : string := "Missing 'gameId' argument.".
Definition noSuchPath : string :=
  "No such path: deploy/ or public/" +:+ JS.LF
  +:+ "Pass a path via --path argument.".
Definition pathDoesNotExist (path : string) : string :=
  "Provided path " +:+ path +:+ " does not exist.".
Definition noIndexHtml (path : string) : string :=
  "Provided path " +:+ path +:+ " does not contain an index.html.".
Definition tokenNotSet : string :=
  "'HEYVR_ACCESS_TOKEN' environment variable not set.".

(** [const path = args.values.path || (fs.existsSync('deploy') && 'deploy')
     || (fs.existsSync('public') && 'public')], lines 99-100.  [None] is the
    value [false]. *)
Definition resolvePath (values : gmap string string) (existsSync : string -> bool)
  : option string :=
  if JS.truthy (values !! "path") then values !! "path"
  else if existsSync "deploy" then Some "deploy"
  else if existsSync "public" then Some "public"
  else None.

(** The array [errors] when line 114 reads it (lines 91-112). *)
Definition collectErrors (w : World) (values : gmap string string) : list string :=
  let errors := [] in
  let errors :=
    if negb (JS.truthy (values !! "version")) then errors ++ [missingVersion]
    else errors in
  let errors :=
    if negb (JS.truthy (values !! "gameId")) then errors ++ [missingGameId]
    else errors in
  let path := resolvePath values (fs_existsSync w) in
  let errors :=
    match path with
    | None => errors ++ [noSuchPath]
    | Some path =>
      if negb (fs_existsSync w path) then errors ++ [pathDoesNotExist path]
      else if negb (fs_existsSync w (path +:+ "/index.html"))
           then errors ++ [noIndexHtml path]
      else errors
    end in
  let accessToken := process_env_HEYVR_ACCESS_TOKEN w in
  let errors :=
    if negb (JS.truthy accessToken) then errors ++ [tokenNotSet]
    else errors in
  errors.

(** [`${n/1000}`] for a buffer length [n]: the quotient in decimal, with at
    most three decimals and no trailing zero. *)
Definition kB (n : nat) : string :=
  let q := (n / 1000)%nat in
  let r := (n mod 1000)%nat in
  let d1 := JS.nat_to_string (r / 100) in
  let d2 := JS.nat_to_string (r / 10 mod 10) in
  let d3 := JS.nat_to_string (r mod 10) in
  if (r =? 0)%nat then JS.nat_to_string q
  else if negb (r mod 10 =? 0)%nat then JS.nat_to_string q +:+ "." +:+ d1 +:+ d2 +:+ d3
  else if negb (r / 10 mod 10 =? 0)%nat then JS.nat_to_string q +:+ "." +:+ d1 +:+ d2
  else JS.nat_to_string q +:+ "." +:+ d1.

(** Reading a property of a value that may be [undefined]. *)
Definition property {A} (name : string) (v : option A) : Proc A :=
  match v with
  | Some a => mret a
  | None =>
    throw (TypeError ("Cannot read properties of undefined (reading '"
                      +:+ name +:+ "')"))
  end.

Definition endpoint : string := "https://heyvr.io/api/developer/game/upload-build".

(** [args.values.sdkVersion || 1] *)
Definition sdkVersionOrDefault (sdkVersion : option string) : JS.value :=
  if JS.truthy sdkVersion then JS.VString (default "" sdkVersion)
  else JS.VNumber 1.

(** The [FormData] of lines 134-138. *)
Definition buildData (gameId : string) (gameFile : Buffer) (version : string)
    (sdkVersion : option string) : list (string * fieldValue) :=
  [ ("game_slug", Text gameId);
    ("game_file", File gameFile "game.zip");
    ("version", Text version);
    ("sdk_version", Numeric (JS.parseInt (sdkVersionOrDefault sdkVersion))) ].

(** The request configuration passed to [axios], lines 141-153. *)
Definition uploadConfig (form : list (string * fieldValue))
    (accessToken : option string) : request :=
  {| method := "post";
     url := endpoint;
     data := form;
     headers := [ ("Content-Type", "multipart/form-data");
                  ("Accept", "application/json");
                  ("Authorization",
                   "Bearer " +:+ default "undefined" accessToken) ] |}.

(** The handlers [.then(res => ...)] and [.catch(error => ...)], lines
    154-168.  axios resolves the request for a status from 200 to 299 and
    rejects it otherwise; an error that carries no response makes
    [error.response.data] throw inside the second handler. *)
Definition settled (r : reply) : Proc unit :=
  match r with
  | response status statusText body =>
    if (200 <=? status)%nat && (status <? 300)%nat then
      if (status =? 200)%nat then emit (console_log ["Done."])
      else
        emit (console_log ["Upload failed with code"; JS.nat_to_string status]);;
        emit (console_log [body]);;
        process_exit 1
    else
      emit (console_error ["Request failed with error:"]);;
      emit (console_error
              ["AxiosError: Request failed with status code "
               +:+ JS.nat_to_string status; "(" +:+ statusText +:+ ")"]);;
      emit (console_log [body]);;
      process_exit 1
  | no_response error =>
    emit (console_error ["Request failed with error:"]);;
    emit (console_error [error; "(undefined)"]);;
    _ ← property "data" (@None string);
    process_exit 1
  end.

(** The lines of [onUploadProgress], lines 150-152. *)
Definition progressLines (printed : list string) : list event :=
  map (fun p => console_log ["Upload progress:"; p; "%"]) printed.

(** What follows the call of [axios]: progress lines while the request is
    in flight, one of the two handlers, and the progress lines that arrive
    afterwards if the handler has not ended the process. *)
Definition exchange (w : World) (config : request) : Proc unit :=
  forEach (fun p => emit (console_log ["Upload progress:"; p; "%"]))
          (uploadProgress w config).1;;
  settled (server w config);;
  forEach (fun p => emit (console_log ["Upload progress:"; p; "%"]))
          (uploadProgress w config).2.

(** [main()], lines 82-169.  Past line 121
    [args.values.gameId] and [accessToken] are strings ([validated_argv2] and
    [collectErrors_nil] below); [default "undefined"] is what string
    concatenation would make of [undefined]. *)
Definition main (w : World) : Proc unit :=
  args ← match NodeUtil.parseArgs (drop 2 (process_argv w)) with
          | inr values => mret values
          | inl e => throw e
          end;
  let errors := collectErrors w args in
  let path := resolvePath args (fs_existsSync w) in
  let accessToken := process_env_HEYVR_ACCESS_TOKEN w in
  (if negb (length errors =? 0)%nat then
     emit (console_error
             ["Found " +:+ JS.nat_to_string (length errors) +:+ " errors:"]);;
     forEach (fun e => emit (console_error ["✘ " +:+ e])) errors;;
     printUsage;;
     process_exit 1
   else mret tt);;
  argv2 ← property "endsWith" (process_argv w !! 2%nat);
  let version := classify argv2 in
  gameFile ← (zipped ← zipDeployFolder w path;
               match zipped with
               | inr buffer => mret (Some buffer)
               | inl e => emit (console_error [e]);; mret None
               end);
  gameFile ← property "length" gameFile;
  emit (console_log ["Publishing"; version;
                     "version (" +:+ kB (length gameFile) +:+ " kB)"]);;
  let gameId := default "undefined" (args !! "gameId") in
  let form := buildData gameId gameFile version (args !! "sdkVersion") in
  emit (console_log ["Publishing " +:+ version +:+ " version of " +:+ gameId
                     +:+ " to HeyVR."]);;
  let config := uploadConfig form accessToken in
  emit (axios config);;
  exchange w config.

(** ** Vocabulary of the statements *)

(** The first value appended to a form under a name. *)
Fixpoint field (name : string) (form : list (string * fieldValue))
  : option fieldValue :=
  match form with
  | [] => None
  | (n, v) :: form => if String.eqb n name then Some v else field name form
  end.

(** An error of the validation list is reported when its line is printed on
    standard error. *)
Definition reported (message : string) (t : list event) : Prop :=
  console_error ["✘ " +:+ message] ∈ t.

(** The command line is accepted by [parseArgs], which returns [values]. *)
Definition parsed (w : World) (values : gmap string string) : Prop :=
  NodeUtil.parseArgs (drop 2 (process_argv w)) = inr values.

Definition validationPasses (w : World) : Prop :=
  exists values, parsed w values /\ collectErrors w values = [].

Definition validationFails (w : World) : Prop :=
  exists values, parsed w values /\ collectErrors w values <> [].

(** The archive of the resolved path ends in an error. *)
Definition archiveError (w : World) : Prop :=
  exists values chunks e,
    parsed w values /\ collectErrors w values = [] /\
    archiver w (resolvePath values (fs_existsSync w)) = (chunks, Some e).

(** The request was sent and the server answered it with [status]. *)
Definition uploadAnswered (w : World) (status : nat) : Prop :=
  exists config statusText body,
    axios config ∈ trace (main w) /\
    server w config = response status statusText body.

(** The request was sent and no response came back. *)
Definition networkError (w : World) : Prop :=
  exists config error,
    axios config ∈ trace (main w) /\ server w config = no_response error.

(** The precondition failures as the specification lists them, each with
    the message that names it. *)
Inductive preconditionFailure (w : World) (values : gmap string string)
  : string -> Prop :=
| version_missing :
    JS.truthy (values !! "version") = false ->
    preconditionFailure w values missingVersion
| gameId_missing :
    JS.truthy (values !! "gameId") = false ->
    preconditionFailure w values missingGameId
| path_unresolved :
    resolvePath values (fs_existsSync w) = None ->
    preconditionFailure w values noSuchPath
| path_invalid (path : string) :
    resolvePath values (fs_existsSync w) = Some path ->
    fs_existsSync w path = false ->
    preconditionFailure w values (pathDoesNotExist path)
| index_html_missing (path : string) :
    resolvePath values (fs_existsSync w) = Some path ->
    fs_existsSync w path = true ->
    fs_existsSync w (path +:+ "/index.html") = false ->
    preconditionFailure w values (noIndexHtml path)
| token_missing :
    JS.truthy (process_env_HEYVR_ACCESS_TOKEN w) = false ->
    preconditionFailure w values tokenNotSet.

(** Events printed on the console, as opposed to the archive and the
    upload. *)
Definition is_console (e : event) : bool :=
  match e with
  | console_log _ | console_error _ => true
  | archive_directory _ | axios _ => false
  end.

(** The four ways a run can go. *)
Inductive run_case (w : World) : Prop :=
| parse_error (e : exception)
    (Hparse : NodeUtil.parseArgs (drop 2 (process_argv w)) = inl e)
    (Hrun : main w = ([], Thrown e))
| validation_failure (values : gmap string string)
    (Hparse : parsed w values)
    (Herrors : collectErrors w values <> [])
    (Hrun : main w =
            (errorReport (collectErrors w values) ++ trace printUsage, Exited 1))
| archive_failure (values : gmap string string) (chunks : list Buffer) (e : string)
    (Hparse : parsed w values)
    (Herrors : collectErrors w values = [])
    (Harchive : archiver w (resolvePath values (fs_existsSync w)) = (chunks, Some e))
    (Hrun : main w =
            ([archive_directory (resolvePath values (fs_existsSync w));
              console_error [e]],
             Thrown (TypeError "Cannot read properties of undefined (reading 'length')")))
| upload (values : gmap string string) (chunks : list Buffer) (a : string)
    (config : request)
    (Hparse : parsed w values)
    (Herrors : collectErrors w values = [])
    (Harchive : archiver w (resolvePath values (fs_existsSync w)) = (chunks, None))
    (Hargv : process_argv w !! 2%nat = Some a)
    (Hconfig : config =
       uploadConfig
         (buildData (default "undefined" (values !! "gameId")) (concat chunks)
                    (classify a) (values !! "sdkVersion"))
         (process_env_HEYVR_ACCESS_TOKEN w))
    (Hrun : main w =
       ([ archive_directory (resolvePath values (fs_existsSync w));
          console_log ["Publishing"; classify a;
                       "version (" +:+ kB (length (concat chunks)) +:+ " kB)"];
          console_log ["Publishing " +:+ classify a +:+ " version of "
                       +:+ default "undefined" (values !! "gameId") +:+ " to HeyVR."];
          axios config ] ++ trace (exchange w config),
        (exchange w config).2)).

(** ** Sample runs *)

(** A world in which the files of [files] exist, every archive run emits
    [archive], the server always gives [answer] and no progress event is
    seen. *)
Definition world (arguments : list string) (token : option string)
    (files : list string) (archive : list Buffer * option string)
    (answer : reply) : World :=
  {| process_argv := "node" :: "heyvr" :: arguments;
     process_env_HEYVR_ACCESS_TOKEN := token;
     fs_existsSync := fun p => bool_decide (p ∈ files);
     archiver := fun _ => archive;
     server := fun _ => answer;
     uploadProgress := fun _ => ([], []) |}.

Definition zip : list Buffer * option string := ([[Byte.x50; Byte.x4b]], None).
Definition ok : reply := response 200 "OK" "{}".

(** The invocation of the README: [heyvr --version 1.0.0 --gameId my-game]. *)
Definition documentedUsage : World :=
  world ["--version"; "1.0.0"; "--gameId"; "my-game"] (Some "secret")
        ["deploy"; "deploy/index.html"] zip ok.

(** No argument, no token, no directory. *)
Definition noArguments : World := world [] None [] zip ok.

(** An option the table does not declare, and no token. *)
Definition unknownFlag : World :=
  world ["--bogus"] None ["deploy"; "deploy/index.html"] zip ok.

(** [--sdkVersion=] with nothing after the equals sign. *)
Definition emptySdkVersion : World :=
  world ["--version=1.2.3"; "--gameId"; "my-game"; "--sdkVersion="] (Some "secret")
        ["deploy"; "deploy/index.html"] zip ok.

(** [--sdkVersion 2]. *)
Definition sdkVersionTwo : World :=
  world ["--version"; "1.2.3"; "--gameId"; "my-game"; "--sdkVersion"; "2"]
        (Some "secret") ["deploy"; "deploy/index.html"] zip ok.

(** A build directory without [index.html], next to a complete [deploy]. *)
Definition distWithoutIndex : World :=
  world ["--version"; "1.2.3"; "--gameId"; "my-game"; "--path"; "dist"]
        (Some "secret") ["dist"; "deploy"; "deploy/index.html"] zip ok.

(** Only [public] exists. *)
Definition publicOnly : World :=
  world ["--version"; "1.2.3"; "--gameId"; "my-game"] (Some "secret")
        ["public"; "public/index.html"] zip ok.

(** The same command line as [distWithoutIndex], without [deploy]. *)
Definition distAlone : World :=
  world ["--version"; "1.2.3"; "--gameId"; "my-game"; "--path"; "dist"]
        (Some "secret") ["dist"] zip ok.

(** ** Vocabulary of the further properties *)

(** [needle] occurs somewhere in [s]. *)
Definition contains (needle s : string) : Prop :=
  exists front back, s = front +:+ needle +:+ back.

(** The requests sent and the directories archived in a trace, in order. *)
Fixpoint requests (t : list event) : list request :=
  match t with
  | [] => []
  | axios config :: t => config :: requests t
  | _ :: t => requests t
  end.

Fixpoint archives (t : list event) : list (option string) :=
  match t with
  | [] => []
  | archive_directory path :: t => path :: archives t
  | _ :: t => archives t
  end.

(** What a trace writes to standard error and to standard output. *)
Fixpoint stderr (t : list event) : list (list string) :=
  match t with
  | [] => []
  | console_error args :: t => args :: stderr t
  | _ :: t => stderr t
  end.

Fixpoint stdout (t : list event) : list (list string) :=
  match t with
  | [] => []
  | console_log args :: t => args :: stdout t
  | _ :: t => stdout t
  end.

(** The request that the run builds from the world once validation has
    passed and the archive is complete (lines 123-153). *)
Definition submitted (w : World) (config : request) : Prop :=
  exists values chunks a,
    parsed w values /\ collectErrors w values = [] /\
    archiver w (resolvePath values (fs_existsSync w)) = (chunks, None) /\
    process_argv w !! 2%nat = Some a /\
    config = uploadConfig
               (buildData (default "undefined" (values !! "gameId")) (concat chunks)
                          (classify a) (values !! "sdkVersion"))
               (process_env_HEYVR_ACCESS_TOKEN w).

(** The request of [documentedUsage]. *)
Definition documentedRequest : request :=
  uploadConfig (buildData "my-game" (concat zip.1) "patch" None) (Some "secret").

(** The archive stream fails after a first chunk. *)
Definition archiveFails : World :=
  world ["--version"; "1.2.3"; "--gameId"; "my-game"] (Some "secret")
        ["deploy"; "deploy/index.html"]
        ([[Byte.x50; Byte.x4b]], Some "Error: EACCES: permission denied") ok.

(** The server refuses the token. *)
Definition unauthorized : World :=
  world ["--version"; "1.2.3"; "--gameId"; "my-game"] (Some "secret")
        ["deploy"; "deploy/index.html"] zip
        (response 401 "Unauthorized" "Unauthenticated.").

(** The server cannot be reached. *)
Definition offline : World :=
  world ["--version"; "1.2.3"; "--gameId"; "my-game"] (Some "secret")
        ["deploy"; "deploy/index.html"] zip
        (no_response "AxiosError: getaddrinfo ENOTFOUND heyvr.io").


(** An undeclared option in a directory that has neither [deploy] nor
    [public]. *)
Definition unknownFlagNoDirectory : World := world ["--bogus"] (Some "secret") [] zip ok.

(** The version and the game as positional words. *)
Definition positionalUsage : World :=
  world ["1.0.0"; "my-game"] (Some "secret") ["deploy"; "deploy/index.html"] zip ok.

(** The version written first, joined to its option by an equals sign. *)
Definition inlineVersion : World :=
  world ["--version=2.0.0"; "--gameId"; "my-game"] (Some "secret")
        ["deploy"; "deploy/index.html"] zip ok.

(** [--path=] with nothing after the equals sign, next to [public]. *)
Definition emptyPath : World :=
  world ["--version"; "1.2.3"; "--gameId"; "my-game"; "--path="] (Some "secret")
        ["public"; "public/index.html"] zip ok.

(** ** Lemmas on strings *)

Section StringFacts.

Lemma length_app_string (a b : string) :
  String.length (a +:+ b) = (String.length a + String.length b)%nat.
Proof. induction a as [|c a IH]; simpl; [reflexivity | now rewrite IH]. Qed.

Lemma substring_full (s : string) :
  String.substring 0 (String.length s) s = s.
Proof. induction s as [|c s IH]; simpl; [reflexivity | now rewrite IH]. Qed.

Lemma substring_skip_front (front s : string) (m : nat) :
  String.substring (String.length front) m (front +:+ s) = String.substring 0 m s.
Proof. induction front as [|c front IH]; simpl; [reflexivity | exact IH]. Qed.

(** Cutting a string at any position within it loses nothing. *)
Lemma substring_split (s : string) (k : nat) :
  (k <= String.length s)%nat ->
  s = String.substring 0 k s +:+ String.substring k (String.length s - k) s.
Proof.
  revert k; induction s as [|c s IH]; intros k Hk; simpl in *.
  - destruct k; [reflexivity | lia].
  - destruct k as [|k]; simpl.
    + now rewrite substring_full.
    + change (String c s = String c (String.substring 0 k s +:+
                                     String.substring k (String.length s - k) s)).
      f_equal. apply IH. lia.
Qed.

Lemma endsWith_has_suffix (s suffix : string) :
  JS.endsWith s suffix = true <-> has_suffix suffix s.
Proof.
  unfold JS.endsWith, has_suffix. split.
  - destruct (Z.ltb_spec (Z.of_nat (String.length s) - Z.of_nat (String.length suffix)) 0)
      as [Hneg|Hpos]; [discriminate|].
    rewrite String.eqb_eq, Nat2Z.id. intros Heq.
    set (k := Z.to_nat (Z.of_nat (String.length s) - Z.of_nat (String.length suffix))) in *.
    assert (Hk : (k <= String.length s)%nat) by lia.
    assert (Hlen : String.length suffix = (String.length s - k)%nat) by lia.
    exists (String.substring 0 k s).
    rewrite (substring_split s k Hk) at 1. now rewrite <- Hlen, Heq.
  - intros [front ->]. rewrite length_app_string.
    destruct (Z.ltb_spec (Z.of_nat (String.length front + String.length suffix)
                          - Z.of_nat (String.length suffix)) 0) as [Hneg|Hpos]; [lia|].
    replace (Z.to_nat (Z.of_nat (String.length front + String.length suffix)
                       - Z.of_nat (String.length suffix)))
      with (String.length front) by lia.
    rewrite Nat2Z.id, substring_skip_front, substring_full.
    apply String.eqb_refl.
Qed.

Lemma endsWith_false_iff (s suffix : string) :
  JS.endsWith s suffix = false <-> ~ has_suffix suffix s.
Proof.
  rewrite <- endsWith_has_suffix. destruct (JS.endsWith s suffix); split; intros H;
    try reflexivity; try discriminate; try (exfalso; apply H; reflexivity);
    intros Habs; discriminate.
Qed.

End StringFacts.

(** ** The primitives on sample inputs *)

Example parseInt_examples :
  JS.parseInt (JS.VString "2") = JS.Num 2 /\
  JS.parseInt (JS.VString "  -12px") = JS.Num (-12) /\
  JS.parseInt (JS.VString "0x1f") = JS.Num 31 /\
  JS.parseInt (JS.VString "") = JS.NaN /\
  JS.parseInt (JS.VString "v2") = JS.NaN /\
  JS.parseInt (JS.VNumber 1) = JS.Num 1 /\
  JS.parseInt (JS.VString "9007199254740993") = JS.Num 9007199254740992 /\
  JS.parseInt (JS.VString "9007199254740995") = JS.Num 9007199254740996 /\
  JS.parseInt (JS.VString "-9007199254740993") = JS.Num (-9007199254740992) /\
  JS.toNumber (2 ^ 1024 - 2 ^ 970 - 1) = JS.Num ((2 ^ 53 - 1) * 2 ^ 971) /\
  JS.toNumber (2 ^ 1024 - 2 ^ 970) = JS.Infinity false /\
  JS.toNumber (- 10 ^ 309) = JS.Infinity true.
Proof. repeat split; vm_compute; reflexivity. Qed.

Example argsToTokens_examples :
  NodeUtil.argsToTokens ["--version"; "1.0.0"; "--gameId=g"; "--path"] =
    [ NodeUtil.option_token "version" "--version" (Some "1.0.0") false;
      NodeUtil.option_token "gameId" "--gameId" (Some "g") true;
      NodeUtil.option_token "path" "--path" None false ] /\
  NodeUtil.argsToTokens ["-x"; "1.0.0"; "--"; "--path"] =
    [ NodeUtil.option_token "x" "-x" None false;
      NodeUtil.positional "1.0.0";
      NodeUtil.option_terminator;
      NodeUtil.positional "--path" ].
Proof. split; reflexivity. Qed.

Example parseArgs_examples :
  NodeUtil.parseArgs ["--version"; "1.0.0"; "--gameId=g"] =
    inr (<["gameId" := "g"]> (<["version" := "1.0.0"]> ∅)) /\
  NodeUtil.parseArgs ["--version=1.0.0"; "--version"; "2.0.0"] =
    inr (<["version" := "2.0.0"]> ∅) /\
  NodeUtil.parseArgs ["--version"] =
    inl (ERR_PARSE_ARGS_INVALID_OPTION_VALUE
           "Option '--version <value>' argument missing") /\
  NodeUtil.parseArgs ["--version"; "--gameId"; "g"] =
    inl (ERR_PARSE_ARGS_INVALID_OPTION_VALUE
           ("Option '--version' argument is ambiguous." +:+ JS.LF
            +:+ "Did you forget to specify the option argument for '--version'?"
            +:+ JS.LF
            +:+ "To specify an option argument starting with a dash use "
            +:+ "'--version=-XYZ'.")) /\
  NodeUtil.parseArgs ["1.0.0"; "g"] =
    inl (ERR_PARSE_ARGS_UNEXPECTED_POSITIONAL "1.0.0") /\
  NodeUtil.parseArgs ["--verbose"] = inl (ERR_PARSE_ARGS_UNKNOWN_OPTION "--verbose").
Proof. repeat split; reflexivity. Qed.

Example classify_examples :
  classify "2.0.0" = "major" /\ classify "2.3.0" = "minor" /\
  classify "2.3.4" = "patch" /\ classify "--version" = "patch" /\
  classify "--version=2.0.0" = "major" /\ classify ".0" = "minor".
Proof. repeat split; reflexivity. Qed.

Example main_documentedUsage :
  main documentedUsage =
    ([ archive_directory (Some "deploy");
       console_log ["Publishing"; "patch"; "version (0.002 kB)"];
       console_log ["Publishing patch version of my-game to HeyVR."];
       axios (uploadConfig
                [ ("game_slug", Text "my-game");
                  ("game_file", File [Byte.x50; Byte.x4b] "game.zip");
                  ("version", Text "patch");
                  ("sdk_version", Numeric (JS.Num 1)) ]
                (Some "secret"));
       console_log ["Done."] ],
     Normal tt).
Proof. reflexivity. Qed.

Example main_noArguments :
  main noArguments =
    ([ console_error ["Found 4 errors:"];
       console_error ["✘ " +:+ missingVersion];
       console_error ["✘ " +:+ missingGameId];
       console_error ["✘ " +:+ noSuchPath];
       console_error ["✘ " +:+ tokenNotSet] ] ++ trace printUsage,
     Exited 1).
Proof. reflexivity. Qed.

Example kB_examples :
  kB 1234 = "1.234" /\ kB 1200 = "1.2" /\ kB 1000 = "1" /\ kB 50 = "0.05".
Proof. repeat split; reflexivity. Qed.

(** ** The shape of a run *)

Section Monad.

Context {A B : Type}.

Lemma bind_mret (a : A) (k : A -> Proc B) : mret a ≫= k = k a.
Proof. unfold mbind, mret, Proc_bind, Proc_ret. simpl. now destruct (k a). Qed.

Lemma bind_emit (e : event) (k : unit -> Proc B) :
  emit e ≫= k = (e :: (k tt).1, (k tt).2).
Proof. reflexivity. Qed.

End Monad.

Lemma forEach_emit {A} (f : A -> event) (l : list A) :
  forEach (fun x => emit (f x)) l = (map f l, Normal tt).
Proof.
  induction l as [|x l IH]; [reflexivity|].
  cbn [forEach]. rewrite bind_emit, IH. reflexivity.
Qed.

Lemma parseArgs_nil : NodeUtil.parseArgs [] = inr ∅.
Proof. reflexivity. Qed.

Section Runs.

Variable w : World.

Lemma main_parse_error (e : exception) :
  NodeUtil.parseArgs (drop 2 (process_argv w)) = inl e ->
  main w = ([], Thrown e).
Proof. intros H. unfold main. rewrite H. reflexivity. Qed.

Lemma main_validation_failure (values : gmap string string) :
  NodeUtil.parseArgs (drop 2 (process_argv w)) = inr values ->
  collectErrors w values <> [] ->
  main w = (errorReport (collectErrors w values) ++ trace printUsage, Exited 1).
Proof.
  intros H Hne. unfold main. rewrite H, bind_mret.
  destruct (collectErrors w values) as [|e errors] eqn:E; [congruence|].
  cbn [length Nat.eqb negb].
  rewrite (forEach_emit (fun e => console_error ["✘ " +:+ e])).
  reflexivity.
Qed.


(** The array [errors] is the concatenation of what each check pushes. *)
Lemma collectErrors_eq (values : gmap string string) :
  collectErrors w values =
    (if JS.truthy (values !! "version") then [] else [missingVersion])
    ++ (if JS.truthy (values !! "gameId") then [] else [missingGameId])
    ++ match resolvePath values (fs_existsSync w) with
       | None => [noSuchPath]
       | Some path =>
         if fs_existsSync w path
         then if fs_existsSync w (path +:+ "/index.html") then []
              else [noIndexHtml path]
         else [pathDoesNotExist path]
       end
    ++ (if JS.truthy (process_env_HEYVR_ACCESS_TOKEN w) then [] else [tokenNotSet]).
Proof.
  unfold collectErrors.
  destruct (JS.truthy (values !! "version")), (JS.truthy (values !! "gameId")),
    (resolvePath values (fs_existsSync w)) as [path|],
    (JS.truthy (process_env_HEYVR_ACCESS_TOKEN w)); simpl;
    try destruct (fs_existsSync w path); simpl;
    try destruct (fs_existsSync w (path +:+ "/index.html")); reflexivity.
Qed.

Lemma collectErrors_nil (values : gmap string string) :
  collectErrors w values = [] ->
  JS.truthy (values !! "version") = true /\
  JS.truthy (values !! "gameId") = true /\
  JS.truthy (process_env_HEYVR_ACCESS_TOKEN w) = true /\
  exists path, resolvePath values (fs_existsSync w) = Some path /\
               fs_existsSync w path = true /\
               fs_existsSync w (path +:+ "/index.html") = true.
Proof.
  rewrite collectErrors_eq.
  destruct (JS.truthy (values !! "version")); [|discriminate].
  destruct (JS.truthy (values !! "gameId")); [|discriminate].
  destruct (resolvePath values (fs_existsSync w)) as [path|]; [|discriminate].
  destruct (fs_existsSync w path) eqn:Hdir; [|discriminate].
  destruct (fs_existsSync w (path +:+ "/index.html")) eqn:Hindex; [|discriminate].
  destruct (JS.truthy (process_env_HEYVR_ACCESS_TOKEN w)); [|discriminate].
  intros _. do 3 (split; [reflexivity|]). exists path. auto.
Qed.

(** A command line that passes validation has a first argument. *)
Lemma validated_argv2 (values : gmap string string) :
  parsed w values -> collectErrors w values = [] ->
  exists a, process_argv w !! 2%nat = Some a.
Proof.
  intros Hp He. apply collectErrors_nil in He as (Hv & _).
  destruct (process_argv w !! 2%nat) as [a|] eqn:E; [now exists a|].
  apply lookup_ge_None in E. unfold parsed in Hp.
  rewrite drop_ge in Hp by lia. rewrite parseArgs_nil in Hp.
  injection Hp as <-. rewrite lookup_empty in Hv. discriminate.
Qed.

Lemma main_archive_error (values : gmap string string) (chunks : list Buffer) (e : string) :
  parsed w values -> collectErrors w values = [] ->
  archiver w (resolvePath values (fs_existsSync w)) = (chunks, Some e) ->
  main w =
    ([archive_directory (resolvePath values (fs_existsSync w)); console_error [e]],
     Thrown (TypeError "Cannot read properties of undefined (reading 'length')")).
Proof.
  intros Hp He Ha. destruct (validated_argv2 values Hp He) as [a Harg].
  unfold main. rewrite Hp, bind_mret, He. cbn [length Nat.eqb negb].
  rewrite bind_mret, Harg. cbn [property]. rewrite bind_mret.
  unfold zipDeployFolder. rewrite Ha. reflexivity.
Qed.

Lemma main_upload (values : gmap string string) (chunks : list Buffer) :
  parsed w values -> collectErrors w values = [] ->
  archiver w (resolvePath values (fs_existsSync w)) = (chunks, None) ->
  exists a config,
    process_argv w !! 2%nat = Some a /\
    config = uploadConfig
               (buildData (default "undefined" (values !! "gameId")) (concat chunks)
                          (classify a) (values !! "sdkVersion"))
               (process_env_HEYVR_ACCESS_TOKEN w) /\
    main w =
      ([ archive_directory (resolvePath values (fs_existsSync w));
         console_log ["Publishing"; classify a;
                      "version (" +:+ kB (length (concat chunks)) +:+ " kB)"];
         console_log ["Publishing " +:+ classify a +:+ " version of "
                      +:+ default "undefined" (values !! "gameId") +:+ " to HeyVR."];
         axios config ] ++ (exchange w config).1,
       (exchange w config).2).
Proof.
  intros Hp He Ha. destruct (validated_argv2 values Hp He) as [a Harg].
  exists a. eexists. split; [exact Harg|]. split; [reflexivity|].
  unfold main. rewrite Hp, bind_mret, He. cbn [length Nat.eqb negb].
  rewrite bind_mret, Harg. cbn [property]. rewrite bind_mret.
  unfold zipDeployFolder. rewrite Ha. reflexivity.
Qed.


End Runs.

Lemma errorReport_console (errors : list string) :
  Forall (fun e => is_console e = true) (errorReport errors).
Proof.
  unfold errorReport. constructor; [reflexivity|].
  induction errors; constructor; auto.
Qed.

Lemma printUsage_console : Forall (fun e => is_console e = true) (trace printUsage).
Proof. repeat constructor. Qed.

Lemma settled_console (r : reply) :
  Forall (fun e => is_console e = true) (trace (settled r)).
Proof.
  destruct r as [status statusText body|error]; cbn [settled].
  - destruct ((200 <=? status)%nat && (status <? 300)%nat);
      [destruct (status =? 200)%nat|]; repeat constructor.
  - repeat constructor.
Qed.

(** The second handler and the non-200 branch of the first end the process
    with code 1; only a 200 lets the script run to its end. *)
Lemma settled_exitCode (r : reply) :
  exitCode (settled r) =
    match r with
    | response status _ _ => if (status =? 200)%nat then 0 else 1
    | no_response _ => 1
    end.
Proof.
  destruct r as [status statusText body|error]; cbn [settled]; [|reflexivity].
  destruct (status =? 200)%nat eqn:E.
  - apply Nat.eqb_eq in E as ->. reflexivity.
  - destruct ((200 <=? status)%nat && (status <? 300)%nat); reflexivity.
Qed.

Lemma progressLines_console (printed : list string) :
  Forall (fun e => is_console e = true) (progressLines printed).
Proof. induction printed; constructor; auto. Qed.

(** The handler decides how the exchange ends; the late progress lines are
    printed only if it returns. *)
Lemma exchange_run (w : World) (config : request) :
  trace (exchange w config) =
    progressLines (uploadProgress w config).1
    ++ trace (settled (server w config))
    ++ match (settled (server w config)).2 with
       | Normal _ => progressLines (uploadProgress w config).2
       | _ => []
       end /\
  (exchange w config).2 = (settled (server w config)).2.
Proof.
  unfold exchange.
  rewrite !(forEach_emit (fun p => console_log ["Upload progress:"; p; "%"])).
  fold (progressLines (uploadProgress w config).1).
  fold (progressLines (uploadProgress w config).2).
  destruct (settled (server w config)) as [t [[]|c|e]]; split; try reflexivity;
    unfold trace; cbn; now rewrite ?app_nil_r.
Qed.

Lemma exchange_console (w : World) (config : request) :
  Forall (fun e => is_console e = true) (trace (exchange w config)).
Proof.
  rewrite (proj1 (exchange_run w config)). apply Forall_app. split.
  - apply progressLines_console.
  - apply Forall_app. split; [apply settled_console|].
    destruct (settled (server w config)).2; auto using progressLines_console.
Qed.

Lemma exchange_exitCode (w : World) (config : request) :
  exitCode (exchange w config) = exitCode (settled (server w config)).
Proof. unfold exitCode. now rewrite (proj2 (exchange_run w config)). Qed.

Lemma main_cases (w : World) : run_case w.
Proof.
  destruct (NodeUtil.parseArgs (drop 2 (process_argv w))) as [e|values] eqn:Hp.
  - eapply parse_error; eauto using main_parse_error.
  - destruct (collectErrors w values) as [|m errors] eqn:He.
    + destruct (archiver w (resolvePath values (fs_existsSync w)))
        as [chunks [e|]] eqn:Ha.
      * eapply archive_failure; eauto using main_archive_error.
      * destruct (main_upload w values chunks Hp He Ha) as (a & config & H1 & H2 & H3).
        eapply upload; eauto.
    + assert (Hne : collectErrors w values <> []) by (rewrite He; discriminate).
      eapply validation_failure; eauto using main_validation_failure.
Qed.

(** Only a validated run with a finished archive sends the request, and it
    sends one. *)
Lemma axios_sent (w : World) (config : request) :
  axios config ∈ trace (main w) ->
  exists values chunks a,
    parsed w values /\ collectErrors w values = [] /\
    archiver w (resolvePath values (fs_existsSync w)) = (chunks, None) /\
    process_argv w !! 2%nat = Some a /\
    config = uploadConfig
               (buildData (default "undefined" (values !! "gameId")) (concat chunks)
                          (classify a) (values !! "sdkVersion"))
               (process_env_HEYVR_ACCESS_TOKEN w) /\
    exitCode (main w) = exitCode (settled (server w config)).
Proof.
  intros Hin. destruct (main_cases w); rewrite Hrun in Hin; unfold trace in Hin;
    cbn [fst] in Hin.
  - inversion Hin.
  - apply elem_of_app in Hin as [Hin|Hin].
    + pose proof (errorReport_console (collectErrors w values)) as Hc.
      rewrite Forall_forall in Hc. apply Hc in Hin. discriminate.
    + pose proof printUsage_console as Hc.
      rewrite Forall_forall in Hc. apply Hc in Hin. discriminate.
  - repeat (apply elem_of_cons in Hin as [Hin|Hin]; [discriminate|]). inversion Hin.
  - change (axios config ∈ [archive_directory (resolvePath values (fs_existsSync w))]
              ++ [console_log ["Publishing"; classify a;
                               "version (" +:+ kB (length (concat chunks)) +:+ " kB)"]]
              ++ [console_log ["Publishing " +:+ classify a +:+ " version of "
                      +:+ default "undefined" (values !! "gameId") +:+ " to HeyVR."]]
              ++ [axios config0] ++ trace (exchange w config0)) in Hin.
    rewrite !elem_of_app, !list_elem_of_singleton in Hin.
    destruct Hin as [Hin|[Hin|[Hin|[Hin|Hin]]]]; try discriminate.
    + injection Hin as ->. exists values, chunks, a. repeat split; auto.
      rewrite <- exchange_exitCode. unfold exitCode. now rewrite Hrun.
    + pose proof (exchange_console w config0) as Hc.
      rewrite Forall_forall in Hc. apply Hc in Hin. discriminate.
Qed.

(** The request built from the world is the one request of the trace. *)
Lemma submitted_sent (w : World) (config : request) :
  submitted w config <-> axios config ∈ trace (main w).
Proof.
  split.
  - intros (values & chunks & a & Hp & He & Ha & Hargv & ->).
    destruct (main_upload w values chunks Hp He Ha) as (a' & config' & H1 & -> & H3).
    assert (a' = a) as -> by congruence.
    unfold trace. rewrite H3. do 3 apply list_elem_of_further. apply list_elem_of_here.
  - intros Hin.
    apply axios_sent in Hin as (values & chunks & a & Hp & He & Ha & Hargv & -> & _).
    exists values, chunks, a. auto.
Qed.

(** The archive is built for the resolved path, and only after validation. *)
Lemma archive_built (w : World) (path : option string) :
  archive_directory path ∈ trace (main w) ->
  exists values,
    parsed w values /\ collectErrors w values = [] /\
    path = resolvePath values (fs_existsSync w).
Proof.
  intros Hin. destruct (main_cases w); rewrite Hrun in Hin; unfold trace in Hin;
    cbn [fst] in Hin.
  - inversion Hin.
  - apply elem_of_app in Hin as [Hin|Hin].
    + pose proof (errorReport_console (collectErrors w values)) as Hc.
      rewrite Forall_forall in Hc. apply Hc in Hin. discriminate.
    + pose proof printUsage_console as Hc.
      rewrite Forall_forall in Hc. apply Hc in Hin. discriminate.
  - apply elem_of_cons in Hin as [Hin|Hin]; [injection Hin as ->; eauto|].
    apply elem_of_cons in Hin as [Hin|Hin]; [discriminate|inversion Hin].
  - apply elem_of_cons in Hin as [Hin|Hin]; [injection Hin as ->; eauto|].
    repeat (apply elem_of_cons in Hin as [Hin|Hin]; [discriminate|]).
    pose proof (exchange_console w config) as Hc.
    rewrite Forall_forall in Hc. apply Hc in Hin. discriminate.
Qed.

(** ** The validation list *)

Section Validation.

Variables (w : World) (values : gmap string string).

(** [errors] holds exactly the messages of the precondition failures. *)
Lemma collectErrors_failures (message : string) :
  message ∈ collectErrors w values <-> preconditionFailure w values message.
Proof.
  rewrite collectErrors_eq. split.
  - rewrite !elem_of_app. intros [H|[H|[H|H]]].
    + destruct (JS.truthy (values !! "version")) eqn:E; [inversion H|].
      apply list_elem_of_singleton in H as ->. now constructor.
    + destruct (JS.truthy (values !! "gameId")) eqn:E; [inversion H|].
      apply list_elem_of_singleton in H as ->. now constructor.
    + destruct (resolvePath values (fs_existsSync w)) as [path|] eqn:E.
      * destruct (fs_existsSync w path) eqn:E1.
        -- destruct (fs_existsSync w (path +:+ "/index.html")) eqn:E2; [inversion H|].
           apply list_elem_of_singleton in H as ->. now apply index_html_missing.
        -- apply list_elem_of_singleton in H as ->. now apply path_invalid.
      * apply list_elem_of_singleton in H as ->. now apply path_unresolved.
    + destruct (JS.truthy (process_env_HEYVR_ACCESS_TOKEN w)) eqn:E; [inversion H|].
      apply list_elem_of_singleton in H as ->. now constructor.
  - rewrite !elem_of_app. intros [H|H|H|path H H1|path H H1 H2|H]; rewrite ?H, ?H1, ?H2.
    + left. apply list_elem_of_singleton. reflexivity.
    + right; left. apply list_elem_of_singleton. reflexivity.
    + right; right; left. apply list_elem_of_singleton. reflexivity.
    + right; right; left. apply list_elem_of_singleton. reflexivity.
    + right; right; left. apply list_elem_of_singleton. reflexivity.
    + right; right; right. apply list_elem_of_singleton. reflexivity.
Qed.

(** Every message of the list is printed, and the run then exits with
    code 1. *)
Lemma error_reported (message : string) :
  parsed w values -> message ∈ collectErrors w values ->
  reported message (trace (main w)) /\ (main w).2 = Exited 1.
Proof.
  intros Hp Hin.
  assert (Hne : collectErrors w values <> []) by (intros E; rewrite E in Hin; inversion Hin).
  rewrite (main_validation_failure w values Hp Hne). split; [|reflexivity].
  unfold reported, trace, errorReport. cbn [fst].
  apply elem_of_app. left. apply elem_of_cons. right.
  apply (list_elem_of_fmap_2 (fun e => console_error ["✘ " +:+ e])). exact Hin.
Qed.

End Validation.

(** ** The version sent to the server *)

(** Whatever request is sent carries the classification of [process.argv[2]],
    the first word of the command line. *)
Lemma version_field_classifies_argv2 (w : World) (config : request) :
  axios config ∈ trace (main w) ->
  exists a, process_argv w !! 2%nat = Some a /\
            field "version" (data config) = Some (Text (classify a)).
Proof.
  intros Hin. apply axios_sent in Hin as (values & chunks & a & _ & _ & _ & Ha & -> & _).
  exists a. split; [exact Ha | reflexivity].
Qed.

(** C1 (code defect): on the command line of the README,
    [heyvr --version 1.0.0 --gameId my-game], validation passes and the value
    of [--version] is ["1.0.0"], which classifies as [major]; the form that
    is uploaded nevertheless carries [version = patch], the classification of
    the word ["--version"] found at [process.argv[2]]. *)
Theorem C1_documented_usage_uploads_patch :
  exists values config,
    parsed documentedUsage values /\
    collectErrors documentedUsage values = [] /\
    values !! "version" = Some "1.0.0" /\
    classify "1.0.0" = "major" /\
    process_argv documentedUsage !! 2%nat = Some "--version" /\
    axios config ∈ trace (main documentedUsage) /\
    field "version" (data config) = Some (Text "patch").
Proof.
  exists (<["gameId" := "my-game"]> (<["version" := "1.0.0"]> ∅)).
  exists (uploadConfig (buildData "my-game" (concat zip.1) "patch" None)
                       (Some "secret")).
  split; [reflexivity|]. split; [reflexivity|].
  split; [reflexivity|]. split; [reflexivity|]. split; [reflexivity|].
  split; [|reflexivity].
  do 3 apply list_elem_of_further. apply list_elem_of_here.
Qed.

(** ** The classifier *)

(** C2: the classifier answers [major], [minor] or [patch] by suffix: a
    string that ends with [.0.0] is [major], one that ends with [.0] but not
    with [.0.0] is [minor], every other string is [patch]; ["1.10.0"] is
    [minor] and ["0.0.0"] is [major]. *)
Theorem C2_classify_by_suffix (a : string) :
  (classify a = "major" \/ classify a = "minor" \/ classify a = "patch") /\
  (has_suffix ".0.0" a -> classify a = "major") /\
  (~ has_suffix ".0.0" a -> has_suffix ".0" a -> classify a = "minor") /\
  (~ has_suffix ".0.0" a -> ~ has_suffix ".0" a -> classify a = "patch") /\
  classify "1.10.0" = "minor" /\
  classify "0.0.0" = "major".
Proof.
  unfold classify at 1 2 3 4 5 6.
  destruct (JS.endsWith a ".0.0") eqn:Hmajor;
    [apply endsWith_has_suffix in Hmajor | apply endsWith_false_iff in Hmajor];
    (destruct (JS.endsWith a ".0") eqn:Hminor;
     [apply endsWith_has_suffix in Hminor | apply endsWith_false_iff in Hminor]);
    repeat split; auto; intros; try reflexivity; contradiction.
Qed.

(** ** Reporting the failures *)

(** C3, as stated, fails: with an undeclared option on the command line
    [parseArgs] throws before any check runs, so the missing access token is
    reported nowhere in the run. *)
Lemma C3_rejected_command_line_reports_nothing :
  JS.truthy (process_env_HEYVR_ACCESS_TOKEN unknownFlag) = false /\
  main unknownFlag = ([], Thrown (ERR_PARSE_ARGS_UNKNOWN_OPTION "--bogus")) /\
  ~ reported tokenNotSet (trace (main unknownFlag)).
Proof.
  split; [reflexivity|]. split; [reflexivity|].
  intros H. vm_compute in H. inversion H.
Qed.

(** C3 (amended): when [parseArgs] accepts the command line, every
    precondition failure (missing version, missing gameId, unresolved path,
    resolved path that does not exist, existing path without index.html,
    missing access token) is in the one list [errors], its message is
    printed in that run, and the run then exits with code 1. *)
Theorem C3_all_failures_reported (w : World) (values : gmap string string)
    (message : string) :
  parsed w values ->
  preconditionFailure w values message ->
  message ∈ collectErrors w values /\
  reported message (trace (main w)) /\
  exitCode (main w) = 1.
Proof.
  intros Hp Hf. apply collectErrors_failures in Hf. split; [exact Hf|].
  destruct (error_reported w values message Hp Hf) as [Hr Hx].
  split; [exact Hr|]. unfold exitCode. now rewrite Hx.
Qed.

(** Without arguments and without a token, the missing version and the
    missing token are both reported in the one run. *)
Lemma C3_version_and_token_in_one_run :
  (reported missingVersion (trace (main noArguments)) /\
   reported tokenNotSet (trace (main noArguments))) /\
  exitCode (main noArguments) = 1.
Proof.
  assert (Hp : parsed noArguments ∅) by reflexivity.
  pose proof (C3_all_failures_reported noArguments ∅ missingVersion Hp
                (version_missing noArguments ∅ eq_refl)) as (_ & Hv & Hx).
  pose proof (C3_all_failures_reported noArguments ∅ tokenNotSet Hp
                (token_missing noArguments ∅ eq_refl)) as (_ & Ht & _).
  exact (conj (conj Hv Ht) Hx).
Defined.

(** ** The exit code *)

Section ExitCode.

Variable w : World.

Lemma exitCode_upload (config : request) :
  axios config ∈ trace (main w) ->
  exitCode (main w) =
    match server w config with
    | response status _ _ => if (status =? 200)%nat then 0 else 1
    | no_response _ => 1
    end.
Proof.
  intros Hin. apply axios_sent in Hin as (_ & _ & _ & _ & _ & _ & _ & _ & ->).
  apply settled_exitCode.
Qed.

Lemma exitCode_success :
  exitCode (main w) = 0 -> validationPasses w /\ uploadAnswered w 200.
Proof.
  intros Hx. destruct (main_cases w);
    try (unfold exitCode in Hx; rewrite Hrun in Hx; discriminate).
  assert (Hin : axios config ∈ trace (main w)).
  { rewrite Hrun. unfold trace at 1. cbn [fst].
    do 3 apply list_elem_of_further. apply list_elem_of_here. }
  rewrite (exitCode_upload config Hin) in Hx.
  destruct (server w config) as [status statusText body|error] eqn:Hs; [|discriminate].
  destruct (status =? 200)%nat eqn:E; [|discriminate].
  apply Nat.eqb_eq in E as ->. split.
  - exists values. auto.
  - exists config, statusText, body. auto.
Qed.

Lemma exitCode_binary : exitCode (main w) = 0 \/ exitCode (main w) = 1.
Proof.
  destruct (main_cases w); unfold exitCode; rewrite Hrun; cbn [snd]; auto.
  fold (exitCode (exchange w config)). rewrite exchange_exitCode, settled_exitCode.
  destruct (server w config) as [status ? ?|?]; [destruct (status =? 200)%nat|]; auto.
Qed.

End ExitCode.

(** C4: the exit code is 0 exactly when validation passes and the upload is
    answered with status 200; it is 1 in every other run, in particular on a
    validation failure, on an archive error, on a response with another
    status and when no response arrives.  The request of a run is the one
    the world determines ([submitted]): a command line that passes
    validation, a finished archive and the answer 200 to that request give
    exit code 0. *)
Theorem C4_exit_code (w : World) :
  (exitCode (main w) = 0 <-> validationPasses w /\ uploadAnswered w 200) /\
  (exitCode (main w) = 0 \/ exitCode (main w) = 1) /\
  (validationFails w -> exitCode (main w) = 1) /\
  (archiveError w -> exitCode (main w) = 1) /\
  ((exists status, status <> 200%nat /\ uploadAnswered w status) ->
   exitCode (main w) = 1) /\
  (networkError w -> exitCode (main w) = 1) /\
  (forall config, submitted w config <-> axios config ∈ trace (main w)) /\
  (forall config statusText body,
     submitted w config -> server w config = response 200 statusText body ->
     exitCode (main w) = 0) /\
  (forall config status statusText body,
     submitted w config -> server w config = response status statusText body ->
     status <> 200%nat -> exitCode (main w) = 1) /\
  (forall config error,
     submitted w config -> server w config = no_response error ->
     exitCode (main w) = 1).
Proof.
  split; [split; [apply exitCode_success|]|].
  - intros [_ (config & statusText & body & Hin & Hs)].
    now rewrite (exitCode_upload w config Hin), Hs.
  - split; [apply exitCode_binary|]. split; [|split; [|split; [|split]]].
    + intros (values & Hp & He).
      unfold exitCode. now rewrite (main_validation_failure w values Hp He).
    + intros (values & chunks & e & Hp & He & Ha).
      unfold exitCode. now rewrite (main_archive_error w values chunks e Hp He Ha).
    + intros (status & Hne & config & statusText & body & Hin & Hs).
      rewrite (exitCode_upload w config Hin), Hs.
      destruct (status =? 200)%nat eqn:E; [|reflexivity].
      apply Nat.eqb_eq in E. contradiction.
    + intros (config & error & Hin & Hs).
      now rewrite (exitCode_upload w config Hin), Hs.
    + split; [apply submitted_sent|]. split; [|split].
      * intros config statusText body Hsub Hs. apply submitted_sent in Hsub.
        now rewrite (exitCode_upload w config Hsub), Hs.
      * intros config status statusText body Hsub Hs Hne.
        apply submitted_sent in Hsub.
        rewrite (exitCode_upload w config Hsub), Hs.
        destruct (status =? 200)%nat eqn:E; [|reflexivity].
        apply Nat.eqb_eq in E. contradiction.
      * intros config error Hsub Hs. apply submitted_sent in Hsub.
        now rewrite (exitCode_upload w config Hsub), Hs.
Qed.

(** The README's command line answered with 200 exits with 0; a refusal, a
    lost request, a failed archive and a failed validation exit with 1. *)
Lemma C4_sample_exit_codes :
  exitCode (main documentedUsage) = 0 /\
  exitCode (main unauthorized) = 1 /\
  exitCode (main offline) = 1 /\
  exitCode (main archiveFails) = 1 /\
  exitCode (main noArguments) = 1.
Proof.
  split; [|split; [|split; [|split]]].
  - refine (proj1 (proj2 (proj2 (proj2 (proj2 (proj2 (proj2 (proj2
              (C4_exit_code documentedUsage))))))))
              documentedRequest "OK" "{}" _ eq_refl).
    exists (<["gameId" := "my-game"]> (<["version" := "1.0.0"]> ∅)), zip.1, "--version".
    repeat split.
  - refine (proj1 (proj2 (proj2 (proj2 (proj2 (proj2 (proj2 (proj2 (proj2
              (C4_exit_code unauthorized)))))))))
              documentedRequest 401%nat "Unauthorized" "Unauthenticated." _ eq_refl _);
      [|discriminate].
    exists (<["gameId" := "my-game"]> (<["version" := "1.2.3"]> ∅)), zip.1, "--version".
    repeat split.
  - refine (proj2 (proj2 (proj2 (proj2 (proj2 (proj2 (proj2 (proj2 (proj2
              (C4_exit_code offline)))))))))
              documentedRequest "AxiosError: getaddrinfo ENOTFOUND heyvr.io" _ eq_refl).
    exists (<["gameId" := "my-game"]> (<["version" := "1.2.3"]> ∅)), zip.1, "--version".
    repeat split.
  - refine (proj1 (proj2 (proj2 (proj2 (C4_exit_code archiveFails)))) _).
    exists (<["gameId" := "my-game"]> (<["version" := "1.2.3"]> ∅)),
           [[Byte.x50; Byte.x4b]], "Error: EACCES: permission denied".
    repeat split.
  - refine (proj1 (proj2 (proj2 (C4_exit_code noArguments))) _).
    exists ∅. split; [reflexivity | discriminate].
Defined.

(** ** The path *)

(** C5, as stated, fails: with an undeclared option on the command line
    there is no [--path] and, here, neither [deploy] nor [public], yet
    [parseArgs] throws before validation starts and no missing-path error is
    recorded; only the exit code is as claimed. *)
Lemma C5_rejected_command_line_records_nothing :
  drop 2 (process_argv unknownFlagNoDirectory) = ["--bogus"] /\
  fs_existsSync unknownFlagNoDirectory "deploy" = false /\
  fs_existsSync unknownFlagNoDirectory "public" = false /\
  main unknownFlagNoDirectory = ([], Thrown (ERR_PARSE_ARGS_UNKNOWN_OPTION "--bogus")) /\
  ~ reported noSuchPath (trace (main unknownFlagNoDirectory)).
Proof.
  do 4 (split; [reflexivity|]).
  intros H. vm_compute in H. inversion H.
Qed.

(** C5 (amended): when [parseArgs] accepts the command line, no [--path] is
    given and neither [deploy] nor [public] exists, the missing-path error
    is recorded and printed, and the exit code is not zero. *)
Theorem C5_missing_path (w : World) (values : gmap string string) :
  parsed w values ->
  values !! "path" = None ->
  fs_existsSync w "deploy" = false ->
  fs_existsSync w "public" = false ->
  noSuchPath ∈ collectErrors w values /\
  reported noSuchPath (trace (main w)) /\
  exitCode (main w) <> 0.
Proof.
  intros Hp Hpath Hd Hpub.
  assert (Hin : noSuchPath ∈ collectErrors w values).
  { apply collectErrors_failures, path_unresolved.
    unfold resolvePath. now rewrite Hpath, Hd, Hpub. }
  destruct (error_reported w values _ Hp Hin) as [Hr Hx].
  split; [exact Hin|]. split; [exact Hr|]. unfold exitCode. now rewrite Hx.
Qed.

Lemma C5_no_arguments_no_directory :
  noSuchPath ∈ collectErrors noArguments ∅ /\
  reported noSuchPath (trace (main noArguments)) /\
  exitCode (main noArguments) <> 0.
Proof.
  exact (C5_missing_path noArguments ∅ eq_refl eq_refl eq_refl eq_refl).
Defined.

(** C6: when the resolved path exists and has no [index.html] at its root,
    the error naming that path is recorded and printed, and the exit code is
    not zero. *)
Theorem C6_missing_index_html (w : World) (values : gmap string string)
    (path : string) :
  parsed w values ->
  resolvePath values (fs_existsSync w) = Some path ->
  fs_existsSync w path = true ->
  fs_existsSync w (path +:+ "/index.html") = false ->
  noIndexHtml path ∈ collectErrors w values /\
  reported (noIndexHtml path) (trace (main w)) /\
  exitCode (main w) <> 0.
Proof.
  intros Hp Hpath Hdir Hindex.
  assert (Hin : noIndexHtml path ∈ collectErrors w values)
    by (apply collectErrors_failures; now apply index_html_missing).
  destruct (error_reported w values _ Hp Hin) as [Hr Hx].
  split; [exact Hin|]. split; [exact Hr|]. unfold exitCode. now rewrite Hx.
Qed.

Lemma C6_dist_without_index :
  noIndexHtml "dist"
    ∈ collectErrors distWithoutIndex
        (<["path" := "dist"]> (<["gameId" := "my-game"]> (<["version" := "1.2.3"]> ∅))) /\
  reported (noIndexHtml "dist") (trace (main distWithoutIndex)) /\
  exitCode (main distWithoutIndex) <> 0.
Proof.
  exact (C6_missing_index_html distWithoutIndex
           (<["path" := "dist"]> (<["gameId" := "my-game"]> (<["version" := "1.2.3"]> ∅)))
           "dist" eq_refl eq_refl eq_refl eq_refl).
Defined.

(** C7: with no [--path], the path resolves to [deploy] when [deploy]
    exists, and to [public] when [deploy] does not exist and [public] does;
    the resolved path is the directory that gets archived. *)
Theorem C7_default_path (w : World) (values : gmap string string) :
  parsed w values ->
  values !! "path" = None ->
  (fs_existsSync w "deploy" = true ->
   resolvePath values (fs_existsSync w) = Some "deploy") /\
  (fs_existsSync w "deploy" = false -> fs_existsSync w "public" = true ->
   resolvePath values (fs_existsSync w) = Some "public") /\
  (forall path, archive_directory path ∈ trace (main w) ->
                path = resolvePath values (fs_existsSync w)).
Proof.
  intros Hp Hpath. unfold resolvePath at 1 2. rewrite Hpath. cbn [JS.truthy].
  split; [now intros -> |]. split; [now intros -> -> |].
  intros path Hin. apply archive_built in Hin as (values' & Hp' & _ & ->).
  unfold parsed in *. congruence.
Qed.

Lemma C7_deploy_first_then_public :
  resolvePath (<["gameId" := "my-game"]> (<["version" := "1.0.0"]> ∅))
    (fs_existsSync documentedUsage) = Some "deploy" /\
  resolvePath (<["gameId" := "my-game"]> (<["version" := "1.2.3"]> ∅))
    (fs_existsSync publicOnly) = Some "public".
Proof.
  split.
  - exact (proj1 (C7_default_path documentedUsage
                    (<["gameId" := "my-game"]> (<["version" := "1.0.0"]> ∅))
                    eq_refl eq_refl) eq_refl).
  - exact (proj1 (proj2 (C7_default_path publicOnly
                           (<["gameId" := "my-game"]> (<["version" := "1.2.3"]> ∅))
                           eq_refl eq_refl)) eq_refl eq_refl).
Defined.

(** C9: a non-empty [--path] value is the resolved path whatever exists on
    disk: two runs on the same command line resolve the same path, and it is
    the directory that either run archives. *)
Theorem C9_explicit_path (w1 w2 : World) (values : gmap string string)
    (path : string) :
  process_argv w1 = process_argv w2 ->
  parsed w1 values ->
  values !! "path" = Some path ->
  path <> "" ->
  parsed w2 values /\
  resolvePath values (fs_existsSync w1) = Some path /\
  resolvePath values (fs_existsSync w2) = Some path /\
  (forall p, archive_directory p ∈ trace (main w1) -> p = Some path) /\
  (forall p, archive_directory p ∈ trace (main w2) -> p = Some path).
Proof.
  intros Hargv Hp Hpath Hne.
  assert (Hp2 : parsed w2 values) by (unfold parsed in *; now rewrite <- Hargv).
  assert (Hres : forall existsSync, resolvePath values existsSync = Some path).
  { intros existsSync. unfold resolvePath. rewrite Hpath. cbn [JS.truthy].
    apply String.eqb_neq in Hne. now rewrite Hne. }
  split; [exact Hp2|]. split; [apply Hres|]. split; [apply Hres|].
  split; intros p Hin; apply archive_built in Hin as (values' & Hp' & _ & ->);
    assert (values' = values) as -> by (unfold parsed in *; congruence);
    apply Hres.
Qed.

Lemma C9_dist_with_or_without_deploy :
  resolvePath (<["path" := "dist"]> (<["gameId" := "my-game"]> (<["version" := "1.2.3"]> ∅)))
    (fs_existsSync distWithoutIndex) = Some "dist" /\
  resolvePath (<["path" := "dist"]> (<["gameId" := "my-game"]> (<["version" := "1.2.3"]> ∅)))
    (fs_existsSync distAlone) = Some "dist".
Proof.
  assert (Hne : "dist" <> "") by discriminate.
  pose proof (C9_explicit_path distWithoutIndex distAlone
    (<["path" := "dist"]> (<["gameId" := "my-game"]> (<["version" := "1.2.3"]> ∅)))
    "dist" eq_refl eq_refl eq_refl Hne) as (_ & H1 & H2 & _).
  exact (conj H1 H2).
Defined.

(** ** The SDK version *)

(** C8, as stated, fails: [--sdkVersion=] supplies the empty string, whose
    integer parse is [NaN], and the form carries [1]. *)
Lemma C8_empty_sdkVersion_sends_1 :
  exists values config,
    parsed emptySdkVersion values /\
    values !! "sdkVersion" = Some "" /\
    axios config ∈ trace (main emptySdkVersion) /\
    field "sdk_version" (data config) = Some (Numeric (JS.Num 1)) /\
    JS.parseInt (JS.VString "") = JS.NaN.
Proof.
  exists (<["sdkVersion" := ""]>
            (<["gameId" := "my-game"]> (<["version" := "1.2.3"]> ∅))).
  exists (uploadConfig (buildData "my-game" (concat zip.1) "patch" (Some ""))
                       (Some "secret")).
  split; [reflexivity|]. split; [reflexivity|]. split; [|split; reflexivity].
  do 3 apply list_elem_of_further. apply list_elem_of_here.
Qed.

(** C8 (amended): in the form that is uploaded, [sdk_version] is 1 when
    [--sdkVersion] is absent or empty, and the integer parse of its value
    when the value is not empty. *)
Theorem C8_sdk_version_field (w : World) (values : gmap string string)
    (config : request) :
  parsed w values ->
  axios config ∈ trace (main w) ->
  field "sdk_version" (data config) =
    Some (Numeric match values !! "sdkVersion" with
                  | None => JS.Num 1
                  | Some s => if String.eqb s "" then JS.Num 1
                              else JS.parseInt (JS.VString s)
                  end).
Proof.
  intros Hp Hin.
  apply axios_sent in Hin as (values' & chunks & a & Hp' & _ & _ & _ & -> & _).
  assert (values' = values) as -> by (unfold parsed in *; congruence).
  cbn [uploadConfig data buildData field String.eqb Ascii.eqb Bool.eqb].
  unfold sdkVersionOrDefault.
  destruct (values !! "sdkVersion") as [s|]; cbn [JS.truthy default]; [|reflexivity].
  destruct (String.eqb s ""); reflexivity.
Qed.

Lemma C8_default_and_supplied_sdk_version :
  field "sdk_version"
    (data (uploadConfig (buildData "my-game" (concat zip.1) "patch" None)
                        (Some "secret")))
  = Some (Numeric (JS.Num 1)) /\
  field "sdk_version"
    (data (uploadConfig (buildData "my-game" (concat zip.1) "patch" (Some "2"))
                        (Some "secret")))
  = Some (Numeric (JS.Num 2)).
Proof.
  split.
  - refine (C8_sdk_version_field documentedUsage
              (<["gameId" := "my-game"]> (<["version" := "1.0.0"]> ∅))
              _ eq_refl _).
    do 3 apply list_elem_of_further. apply list_elem_of_here.
  - refine (C8_sdk_version_field sdkVersionTwo
              (<["sdkVersion" := "2"]>
                 (<["gameId" := "my-game"]> (<["version" := "1.2.3"]> ∅)))
              _ eq_refl _).
    do 3 apply list_elem_of_further. apply list_elem_of_here.
Defined.

(** ** Nothing happens before validation passes *)

(** C10: when the list of errors is not empty, the run ends with
    [process.exit(1)] and its trace holds neither an archive nor a request. *)
Theorem C10_no_archive_no_upload (w : World) (values : gmap string string) :
  parsed w values ->
  collectErrors w values <> [] ->
  (forall path, archive_directory path ∉ trace (main w)) /\
  (forall config, axios config ∉ trace (main w)) /\
  (main w).2 = Exited 1.
Proof.
  intros Hp Hne. split; [|split].
  - intros path Hin. apply archive_built in Hin as (values' & Hp' & He & _).
    unfold parsed in *. congruence.
  - intros config Hin. apply axios_sent in Hin as (values' & _ & _ & Hp' & He & _).
    unfold parsed in *. congruence.
  - now rewrite (main_validation_failure w values Hp Hne).
Qed.

Lemma C10_dist_without_index_stops :
  (forall path, archive_directory path ∉ trace (main distWithoutIndex)) /\
  (forall config, axios config ∉ trace (main distWithoutIndex)) /\
  (main distWithoutIndex).2 = Exited 1.
Proof.
  refine (C10_no_archive_no_upload distWithoutIndex
            (<["path" := "dist"]> (<["gameId" := "my-game"]> (<["version" := "1.2.3"]> ∅)))
            eq_refl _).
  discriminate.
Defined.

(** * Further properties of the script *)

(** ** What a request carries *)

Lemma truthy_Some (v : option string) :
  JS.truthy v = true -> exists s, v = Some s /\ s <> "".
Proof.
  destruct v as [s|]; [|discriminate]. cbn [JS.truthy].
  intros H. exists s. split; [reflexivity|].
  intros ->. discriminate.
Qed.

Lemma documentedUsage_sends :
  axios documentedRequest ∈ trace (main documentedUsage).
Proof. do 3 apply list_elem_of_further. apply list_elem_of_here. Qed.

(** X1: Every request is a POST to the one endpoint, with three headers, and its
    Authorization header is [Bearer] followed by the value of
    [HEYVR_ACCESS_TOKEN], which is set and not empty. *)
Theorem request_is_authorized (w : World) (config : request) :
  axios config ∈ trace (main w) ->
  exists token,
    process_env_HEYVR_ACCESS_TOKEN w = Some token /\ token <> "" /\
    method config = "post" /\ url config = endpoint /\
    headers config = [ ("Content-Type", "multipart/form-data");
                       ("Accept", "application/json");
                       ("Authorization", "Bearer " +:+ token) ].
Proof.
  intros Hin. apply axios_sent in Hin as (values & chunks & a & _ & He & _ & _ & -> & _).
  apply collectErrors_nil in He as (_ & _ & Ht & _).
  apply truthy_Some in Ht as (token & Ht & Hne).
  exists token. rewrite Ht. repeat split; auto.
Qed.

Lemma request_is_authorized_documentedUsage :
  exists token,
    process_env_HEYVR_ACCESS_TOKEN documentedUsage = Some token /\ token <> "" /\
    method documentedRequest = "post" /\ url documentedRequest = endpoint /\
    headers documentedRequest = [ ("Content-Type", "multipart/form-data");
                                  ("Accept", "application/json");
                                  ("Authorization", "Bearer " +:+ token) ].
Proof.
  exact (request_is_authorized documentedUsage documentedRequest documentedUsage_sends).
Defined.

(** X2: The form of every request has the four fields [game_slug], [game_file],
    [version] and [sdk_version], in this order, and [game_slug] is the
    non-empty value that [parseArgs] returned for [--gameId]. *)
Theorem request_names_the_game (w : World) (values : gmap string string)
    (config : request) :
  parsed w values ->
  axios config ∈ trace (main w) ->
  config.(data).*1 = ["game_slug"; "game_file"; "version"; "sdk_version"] /\
  exists gameId,
    values !! "gameId" = Some gameId /\ gameId <> "" /\
    field "game_slug" (data config) = Some (Text gameId).
Proof.
  intros Hp Hin.
  apply axios_sent in Hin as (values' & chunks & a & Hp' & He & _ & _ & -> & _).
  assert (values' = values) as -> by (unfold parsed in *; congruence).
  split; [reflexivity|].
  apply collectErrors_nil in He as (_ & Hg & _).
  apply truthy_Some in Hg as (gameId & Hg & Hne).
  exists gameId. rewrite Hg. auto.
Qed.

Lemma request_names_the_game_documentedUsage :
  documentedRequest.(data).*1 = ["game_slug"; "game_file"; "version"; "sdk_version"] /\
  exists gameId,
    (<["gameId" := "my-game"]> (<["version" := "1.0.0"]> (∅ : gmap string string)))
      !! "gameId" = Some gameId /\ gameId <> "" /\
    field "game_slug" (data documentedRequest) = Some (Text gameId).
Proof.
  exact (request_names_the_game documentedUsage
           (<["gameId" := "my-game"]> (<["version" := "1.0.0"]> ∅))
           documentedRequest eq_refl documentedUsage_sends).
Defined.

(** X3: The file of every request is [game.zip], made of the chunks of the
    archive in the order they were emitted; the archive ended without error
    and is that of the resolved path, which exists and has an
    [index.html]. *)
Theorem request_carries_the_archive (w : World) (values : gmap string string)
    (config : request) :
  parsed w values ->
  axios config ∈ trace (main w) ->
  exists path chunks,
    resolvePath values (fs_existsSync w) = Some path /\
    fs_existsSync w path = true /\
    fs_existsSync w (path +:+ "/index.html") = true /\
    archiver w (Some path) = (chunks, None) /\
    archive_directory (Some path) ∈ trace (main w) /\
    field "game_file" (data config) = Some (File (concat chunks) "game.zip").
Proof.
  intros Hp Hin. destruct (main_cases w);
    try (apply axios_sent in Hin as (v & _ & _ & Hp' & He' & _);
         unfold parsed in *; congruence).
  - apply axios_sent in Hin as (v & c & _ & Hp' & _ & Ha' & _).
    assert (v = values0) as -> by (unfold parsed in *; congruence). congruence.
  - pose proof Hin as Hin'.
    apply axios_sent in Hin' as (v & c & a' & Hp' & _ & Ha' & Hargv' & -> & _).
    assert (values0 = values) as -> by (unfold parsed in *; congruence).
    assert (v = values) as -> by (unfold parsed in *; congruence).
    assert (c = chunks) as -> by congruence.
    destruct (collectErrors_nil w values Herrors) as (_ & _ & _ & path & Hr & Hd & Hi).
    exists path, chunks. rewrite Hr in *.
    repeat split; auto.
    rewrite Hrun. apply list_elem_of_here.
Qed.

Lemma request_carries_the_archive_documentedUsage :
  exists path chunks,
    resolvePath (<["gameId" := "my-game"]> (<["version" := "1.0.0"]> ∅))
      (fs_existsSync documentedUsage) = Some path /\
    fs_existsSync documentedUsage path = true /\
    fs_existsSync documentedUsage (path +:+ "/index.html") = true /\
    archiver documentedUsage (Some path) = (chunks, None) /\
    archive_directory (Some path) ∈ trace (main documentedUsage) /\
    field "game_file" (data documentedRequest)
      = Some (File (concat chunks) "game.zip").
Proof.
  exact (request_carries_the_archive documentedUsage
           (<["gameId" := "my-game"]> (<["version" := "1.0.0"]> ∅))
           documentedRequest eq_refl documentedUsage_sends).
Defined.

(** ** One archive, one request *)

Lemma console_only (t : list event) :
  Forall (fun e => is_console e = true) t -> requests t = [] /\ archives t = [].
Proof.
  induction 1 as [|e t He _ [IH1 IH2]]; [split; reflexivity|].
  destruct e; try discriminate; cbn [requests archives]; auto.
Qed.


Lemma archives_app (t1 t2 : list event) :
  archives (t1 ++ t2) = archives t1 ++ archives t2.
Proof.
  induction t1 as [|e t1 IH]; [reflexivity|].
  destruct e; cbn [app archives]; rewrite ?IH; reflexivity.
Qed.

Lemma stderr_app (t1 t2 : list event) :
  stderr (t1 ++ t2) = stderr t1 ++ stderr t2.
Proof.
  induction t1 as [|e t1 IH]; [reflexivity|].
  destruct e; cbn [app stderr]; rewrite ?IH; reflexivity.
Qed.

Lemma stdout_app (t1 t2 : list event) :
  stdout (t1 ++ t2) = stdout t1 ++ stdout t2.
Proof.
  induction t1 as [|e t1 IH]; [reflexivity|].
  destruct e; cbn [app stdout]; rewrite ?IH; reflexivity.
Qed.

(** X4: A run archives at most one directory and sends at most one request, and
    a request comes only after the archive: nothing is retried and nothing is
    sent without an archive. *)
Theorem one_archive_then_one_request (w : World) :
  (length (archives (trace (main w))) <= 1)%nat /\
  (length (requests (trace (main w))) <= 1)%nat /\
  (forall config, axios config ∈ trace (main w) ->
     exists path rest,
       trace (main w) = archive_directory path :: rest /\
       axios config ∈ rest /\ archives rest = []).
Proof.
  destruct (main_cases w);
    match type of Hrun with
    | _ = (?t, _) =>
      assert (Ht : trace (main w) = t) by (unfold trace at 1; now rewrite Hrun);
      rewrite Ht; clear Ht
    end.
  - repeat split; cbn; try lia. intros config Hin. inversion Hin.
  - pose proof (errorReport_console (collectErrors w values)) as H1.
    pose proof printUsage_console as H2.
    assert (Hc : Forall (fun e => is_console e = true)
                   (errorReport (collectErrors w values) ++ trace printUsage))
      by (apply Forall_app; auto).
    destruct (console_only _ Hc) as [-> ->]. repeat split; cbn; try lia.
    intros config Hin. rewrite Forall_forall in Hc. apply Hc in Hin. discriminate.
  - repeat split; cbn; try lia. intros config Hin.
    repeat (apply elem_of_cons in Hin as [Hin|Hin]; [discriminate|]). inversion Hin.
  - destruct (console_only _ (exchange_console w config)) as [Hr Ha].
    cbn [app requests archives]. rewrite Hr, Ha. repeat split; cbn; try lia.
    intros config' Hin. eexists _, _. split; [reflexivity|].
    apply elem_of_cons in Hin as [Hin|Hin]; [discriminate|]. split; [exact Hin|].
    exact Ha.
Qed.

(** ** Runs that fail after validation *)

(** X5: When the archive stream emits an error, the error is printed on standard
    error, the chunks read so far are dropped, no request is sent, and the run
    ends on the uncaught [TypeError] of [gameFile.length]. *)
Theorem archive_error_sends_nothing (w : World) (values : gmap string string)
    (chunks : list Buffer) (e : string) :
  parsed w values ->
  collectErrors w values = [] ->
  archiver w (resolvePath values (fs_existsSync w)) = (chunks, Some e) ->
  stderr (trace (main w)) = [[e]] /\
  stdout (trace (main w)) = [] /\
  requests (trace (main w)) = [] /\
  (main w).2 = Thrown (TypeError "Cannot read properties of undefined (reading 'length')").
Proof.
  intros Hp He Ha. rewrite (main_archive_error w values chunks e Hp He Ha).
  repeat split.
Qed.

Lemma archive_error_sends_nothing_archiveFails :
  stderr (trace (main archiveFails)) = [["Error: EACCES: permission denied"]] /\
  stdout (trace (main archiveFails)) = [] /\
  requests (trace (main archiveFails)) = [] /\
  (main archiveFails).2
    = Thrown (TypeError "Cannot read properties of undefined (reading 'length')").
Proof.
  exact (archive_error_sends_nothing archiveFails
           (<["gameId" := "my-game"]> (<["version" := "1.2.3"]> ∅))
           [[Byte.x50; Byte.x4b]] "Error: EACCES: permission denied"
           eq_refl eq_refl eq_refl).
Defined.

Lemma upload_run (w : World) (config : request) :
  axios config ∈ trace (main w) ->
  exists l1 l2 path,
    trace (main w) = [archive_directory path; console_log l1; console_log l2;
                      axios config] ++ trace (exchange w config) /\
    (main w).2 = (settled (server w config)).2.
Proof.
  intros Hin. pose proof Hin as Hin'.
  apply axios_sent in Hin' as (v & c & a' & Hp' & He' & Ha' & Hargv' & Hc & _).
  destruct (main_cases w).
  - unfold parsed in *; congruence.
  - assert (values = v) as -> by (unfold parsed in *; congruence). contradiction.
  - assert (values = v) as -> by (unfold parsed in *; congruence).
    rewrite Ha' in Harchive. discriminate.
  - assert (values = v) as -> by (unfold parsed in *; congruence).
    assert (chunks = c) as -> by congruence.
    assert (a = a') as -> by congruence.
    assert (config0 = config) as -> by congruence.
    unfold trace at 1. rewrite Hrun. eexists _, _, _. split; [reflexivity|].
    apply exchange_run.
Qed.

Lemma stderr_progressLines (printed : list string) :
  stderr (progressLines printed) = [].
Proof. induction printed; [reflexivity | assumption]. Qed.


(** After a refusal the handler ends the process: no progress line follows
    what it prints. *)
Lemma refused_exchange (w : World) (config : request)
    (status : nat) (statusText body : string) :
  server w config = response status statusText body ->
  status <> 200%nat ->
  trace (exchange w config)
  = progressLines (uploadProgress w config).1
    ++ trace (settled (response status statusText body)) /\
  (settled (response status statusText body)).2 = Exited 1.
Proof.
  intros Hs Hne. destruct (exchange_run w config) as [Ht _]. rewrite Ht, Hs.
  assert (Hx : (settled (response status statusText body)).2 = Exited 1).
  { cbn [settled].
    assert ((status =? 200)%nat = false) as -> by now apply Nat.eqb_neq.
    destruct ((200 <=? status)%nat && (status <? 300)%nat); reflexivity. }
  rewrite Hx. now rewrite app_nil_r.
Qed.

(** X6: A response with a status other than 200 ends the run with
    [process.exit(1)] after the body of the response has been printed as the
    last line of standard output. *)
Theorem refused_upload_prints_the_body (w : World) (config : request)
    (status : nat) (statusText body : string) :
  axios config ∈ trace (main w) ->
  server w config = response status statusText body ->
  status <> 200%nat ->
  last (stdout (trace (main w))) = Some [body] /\
  (main w).2 = Exited 1.
Proof.
  intros Hin Hs Hne.
  destruct (upload_run w config Hin) as (l1 & l2 & path & -> & ->).
  destruct (refused_exchange w config status statusText body Hs Hne) as [-> Hx].
  rewrite Hs. split; [|exact Hx].
  rewrite !stdout_app, !last_app. cbn [settled].
  assert ((status =? 200)%nat = false) as -> by now apply Nat.eqb_neq.
  destruct ((200 <=? status)%nat && (status <? 300)%nat); reflexivity.
Qed.

Lemma unauthorized_sends :
  axios (uploadConfig (buildData "my-game" (concat zip.1) "patch" None) (Some "secret"))
    ∈ trace (main unauthorized).
Proof. do 3 apply list_elem_of_further. apply list_elem_of_here. Qed.

Lemma refused_upload_prints_the_body_unauthorized :
  last (stdout (trace (main unauthorized))) = Some ["Unauthenticated."] /\
  (main unauthorized).2 = Exited 1.
Proof.
  refine (refused_upload_prints_the_body unauthorized _ 401 "Unauthorized"
            "Unauthenticated." unauthorized_sends eq_refl _).
  discriminate.
Defined.

(** X8: When no response arrives, the error is printed with [(undefined)] for
    its status text and the handler then throws on [error.response.data]:
    the [process.exit(1)] of line 167 is not reached. *)
Theorem lost_request_throws (w : World) (config : request) (error : string) :
  axios config ∈ trace (main w) ->
  server w config = no_response error ->
  stderr (trace (main w)) = [["Request failed with error:"]; [error; "(undefined)"]] /\
  (main w).2 = Thrown (TypeError "Cannot read properties of undefined (reading 'data')").
Proof.
  intros Hin Hs.
  destruct (upload_run w config Hin) as (l1 & l2 & path & -> & ->).
  rewrite (proj1 (exchange_run w config)), Hs. split; [|reflexivity].
  rewrite !stderr_app, stderr_progressLines. reflexivity.
Qed.

Lemma offline_sends :
  axios (uploadConfig (buildData "my-game" (concat zip.1) "patch" None) (Some "secret"))
    ∈ trace (main offline).
Proof. do 3 apply list_elem_of_further. apply list_elem_of_here. Qed.

Lemma lost_request_throws_offline :
  stderr (trace (main offline))
    = [["Request failed with error:"];
       ["AxiosError: getaddrinfo ENOTFOUND heyvr.io"; "(undefined)"]] /\
  (main offline).2
    = Thrown (TypeError "Cannot read properties of undefined (reading 'data')").
Proof.
  exact (lost_request_throws offline _ "AxiosError: getaddrinfo ENOTFOUND heyvr.io"
           offline_sends eq_refl).
Defined.

(** X9: An exception is left uncaught in exactly three situations:
    [parseArgs] rejects the command line (its error), the archive of a
    validated command line fails (the [TypeError] of [gameFile.length]), or
    the request that was built gets no response (the [TypeError] of
    [error.response.data]).  In particular [process.argv[2].endsWith] never
    throws. *)
Theorem uncaught_exceptions (w : World) (e : exception) :
  (main w).2 = Thrown e <->
  NodeUtil.parseArgs (drop 2 (process_argv w)) = inl e \/
  (e = TypeError "Cannot read properties of undefined (reading 'length')" /\
   archiveError w) \/
  (e = TypeError "Cannot read properties of undefined (reading 'data')" /\
   exists config error, submitted w config /\ server w config = no_response error).
Proof.
  split.
  - intros Hx. destruct (main_cases w); rewrite Hrun in Hx; cbn [snd] in Hx.
    + left. congruence.
    + discriminate.
    + right; left. split; [congruence|]. exists values, chunks, e0. auto.
    + right; right. rewrite (proj2 (exchange_run w config)) in Hx.
      destruct (server w config) as [status statusText body|error] eqn:Hs.
      * cbn [settled] in Hx.
        destruct ((200 <=? status)%nat && (status <? 300)%nat);
          [destruct (status =? 200)%nat|]; discriminate.
      * split; [cbv in Hx; congruence|]. exists config, error. split; [|exact Hs].
        exists values, chunks, a. auto.
  - intros [Hp|[[-> (values & chunks & e' & Hp & He & Ha)]
               |[-> (config & error & Hsub & Hs)]]].
    + now rewrite (main_parse_error w e Hp).
    + now rewrite (main_archive_error w values chunks e' Hp He Ha).
    + apply submitted_sent in Hsub.
      destruct (upload_run w config Hsub) as (_ & _ & _ & _ & ->).
      now rewrite Hs.
Qed.

Lemma uncaught_exceptions_offline :
  (main offline).2
  = Thrown (TypeError "Cannot read properties of undefined (reading 'data')").
Proof.
  apply (uncaught_exceptions offline). right; right. split; [reflexivity|].
  exists (uploadConfig (buildData "my-game" (concat zip.1) "patch" None)
                       (Some "secret")),
         "AxiosError: getaddrinfo ENOTFOUND heyvr.io".
  split; [|reflexivity].
  exists (<["gameId" := "my-game"]> (<["version" := "1.2.3"]> ∅)),
         [[Byte.x50; Byte.x4b]], "--version".
  repeat split.
Defined.

(** ** Runs that succeed *)



(** ** The validation report *)

Lemma stderr_errorReport (errors : list string) :
  stderr (errorReport errors) =
    ["Found " +:+ JS.nat_to_string (length errors) +:+ " errors:"]
    :: map (fun e => ["✘ " +:+ e]) errors.
Proof.
  unfold errorReport. cbn [stderr]. f_equal.
  induction errors as [|e errors IH]; [reflexivity|].
  cbn [map stderr]. now rewrite IH.
Qed.

Lemma stdout_errorReport (errors : list string) : stdout (errorReport errors) = [].
Proof.
  unfold errorReport. cbn [stdout].
  induction errors as [|e errors IH]; [reflexivity | exact IH].
Qed.

Lemma collectErrors_length (w : World) (values : gmap string string) :
  (length (collectErrors w values) <= 4)%nat.
Proof.
  rewrite collectErrors_eq.
  destruct (JS.truthy (values !! "version")), (JS.truthy (values !! "gameId")),
    (resolvePath values (fs_existsSync w)) as [path|],
    (JS.truthy (process_env_HEYVR_ACCESS_TOKEN w));
    try destruct (fs_existsSync w path);
    try destruct (fs_existsSync w (path +:+ "/index.html")); cbn; lia.
Qed.

(** X11: A failed validation writes to standard error one header that counts the
    errors, from one to four, then one line per error in the order of the
    checks (version, gameId, path, token); standard output holds the eleven
    lines of the usage and nothing else. *)
Theorem validation_report (w : World) (values : gmap string string) :
  parsed w values ->
  collectErrors w values <> [] ->
  (1 <= length (collectErrors w values) <= 4)%nat /\
  stderr (trace (main w)) =
    ["Found " +:+ JS.nat_to_string (length (collectErrors w values)) +:+ " errors:"]
    :: map (fun e => ["✘ " +:+ e]) (collectErrors w values) /\
  stdout (trace (main w)) = stdout (trace printUsage) /\
  length (stdout (trace (main w))) = 11%nat.
Proof.
  intros Hp Hne.
  assert (Ht : trace (main w)
               = errorReport (collectErrors w values) ++ trace printUsage)
    by (unfold trace at 1; now rewrite (main_validation_failure w values Hp Hne)).
  rewrite Ht, stderr_app, stdout_app, stderr_errorReport, stdout_errorReport.
  split; [|repeat split; apply app_nil_r].
  split; [|apply collectErrors_length].
  destruct (collectErrors w values); [contradiction | cbn; lia].
Qed.

Lemma validation_report_noArguments :
  (1 <= length (collectErrors noArguments ∅) <= 4)%nat /\
  stderr (trace (main noArguments)) =
    ["Found " +:+ JS.nat_to_string (length (collectErrors noArguments ∅)) +:+ " errors:"]
    :: map (fun e => ["✘ " +:+ e]) (collectErrors noArguments ∅) /\
  stdout (trace (main noArguments)) = stdout (trace printUsage) /\
  length (stdout (trace (main noArguments))) = 11%nat.
Proof.
  refine (validation_report noArguments ∅ eq_refl _). discriminate.
Defined.

(** X12: Validation passes exactly when [--version] and [--gameId] have non-empty
    values, the token is set and not empty, and the resolved path exists and
    has an [index.html]. *)
Theorem validation_passes_iff (w : World) (values : gmap string string) :
  collectErrors w values = [] <->
  JS.truthy (values !! "version") = true /\
  JS.truthy (values !! "gameId") = true /\
  JS.truthy (process_env_HEYVR_ACCESS_TOKEN w) = true /\
  exists path, resolvePath values (fs_existsSync w) = Some path /\
               fs_existsSync w path = true /\
               fs_existsSync w (path +:+ "/index.html") = true.
Proof.
  split; [apply collectErrors_nil|].
  intros (Hv & Hg & Ht & path & Hr & Hd & Hi).
  rewrite collectErrors_eq, Hv, Hg, Ht, Hr, Hd, Hi. reflexivity.
Qed.

(** X13: An empty [--path] value counts as no value: the path is resolved, and
    the command line validated, as if [--path] had not been given. *)
Theorem empty_path_is_ignored (w : World) (values : gmap string string) :
  values !! "path" = Some "" ->
  resolvePath values (fs_existsSync w)
    = resolvePath (delete "path" values) (fs_existsSync w) /\
  resolvePath values (fs_existsSync w) <> Some "" /\
  collectErrors w values = collectErrors w (delete "path" values).
Proof.
  intros Hpath.
  assert (Hr : resolvePath values (fs_existsSync w)
               = resolvePath (delete "path" values) (fs_existsSync w)).
  { unfold resolvePath. rewrite Hpath, lookup_delete_eq. reflexivity. }
  split; [exact Hr|]. split.
  - unfold resolvePath. rewrite Hpath. cbn [JS.truthy String.eqb negb].
    destruct (fs_existsSync w "deploy"); [discriminate|].
    destruct (fs_existsSync w "public"); discriminate.
  - rewrite !collectErrors_eq, Hr.
    rewrite !lookup_delete_ne by discriminate. reflexivity.
Qed.

Lemma empty_path_is_ignored_emptyPath :
  resolvePath (<["path" := ""]> (<["gameId" := "my-game"]> (<["version" := "1.2.3"]> ∅)))
    (fs_existsSync emptyPath)
  = resolvePath
      (delete "path"
         (<["path" := ""]> (<["gameId" := "my-game"]> (<["version" := "1.2.3"]> ∅))))
      (fs_existsSync emptyPath) /\
  resolvePath (<["path" := ""]> (<["gameId" := "my-game"]> (<["version" := "1.2.3"]> ∅)))
    (fs_existsSync emptyPath) <> Some "" /\
  collectErrors emptyPath
    (<["path" := ""]> (<["gameId" := "my-game"]> (<["version" := "1.2.3"]> ∅)))
  = collectErrors emptyPath
      (delete "path"
         (<["path" := ""]> (<["gameId" := "my-game"]> (<["version" := "1.2.3"]> ∅)))).
Proof.
  exact (empty_path_is_ignored emptyPath
           (<["path" := ""]> (<["gameId" := "my-game"]> (<["version" := "1.2.3"]> ∅)))
           eq_refl).
Defined.

(** ** More on the classifier *)

Section Suffixes.

Lemma string_app_assoc (a b c : string) : (a +:+ b) +:+ c = a +:+ (b +:+ c).
Proof.
  induction a as [|x a IH]; [reflexivity|].
  change (String x ((a +:+ b) +:+ c) = String x (a +:+ (b +:+ c))). now rewrite IH.
Qed.

(** Two ways of cutting one string share a middle part. *)
Lemma string_app_eq_app (a b c d : string) :
  a +:+ b = c +:+ d ->
  (exists m, c = a +:+ m /\ b = m +:+ d) \/ (exists m, a = c +:+ m /\ d = m +:+ b).
Proof.
  revert c. induction a as [|x a IH]; intros c H.
  - left. exists c. split; [reflexivity | exact H].
  - destruct c as [|y c].
    + right. exists (String x a). split; [reflexivity | exact (eq_sym H)].
    + change (String x (a +:+ b) = String y (c +:+ d)) in H.
      injection H as -> H. destruct (IH c H) as [(m & -> & ->)|(m & -> & ->)].
      * left. exists m. split; reflexivity.
      * right. exists m. split; reflexivity.
Qed.

Lemma endsWith_ext (a b suffix : string) :
  (has_suffix suffix a <-> has_suffix suffix b) ->
  JS.endsWith a suffix = JS.endsWith b suffix.
Proof.
  intros H. destruct (JS.endsWith b suffix) eqn:E.
  - apply endsWith_has_suffix, H, endsWith_has_suffix, E.
  - apply endsWith_false_iff. intros Ha. apply endsWith_false_iff in E.
    apply E, H, Ha.
Qed.

Lemma classify_ext (a b : string) :
  (has_suffix ".0.0" a <-> has_suffix ".0.0" b) ->
  (has_suffix ".0" a <-> has_suffix ".0" b) ->
  classify a = classify b.
Proof.
  intros H1 H2. unfold classify.
  now rewrite (endsWith_ext a b ".0.0" H1), (endsWith_ext a b ".0" H2).
Qed.

(** A suffix no longer than [s] is a suffix of [front +:+ s] only if it is
    one of [s]. *)
Lemma has_suffix_app (suffix front s : string) :
  (String.length suffix <= String.length s)%nat ->
  has_suffix suffix (front +:+ s) <-> has_suffix suffix s.
Proof.
  intros Hlen. split.
  - intros [p H]. apply string_app_eq_app in H as [(m & -> & ->)|(m & -> & Hs)].
    + now exists m.
    + assert (m = "") as ->.
      { apply (f_equal String.length) in Hs. rewrite length_app_string in Hs.
        destruct m; [reflexivity | cbn in Hs; lia]. }
      exists "". exact (eq_sym Hs).
  - intros [p ->]. exists (front +:+ p). now rewrite string_app_assoc.
Qed.

(** A character that does not occur in the suffix separates what precedes
    it from the test. *)
Lemma has_suffix_separator (suffix front s : string) (c : ascii) :
  ~ contains (String c "") suffix ->
  has_suffix suffix (front +:+ String c s) <-> has_suffix suffix s.
Proof.
  intros Hc. split.
  - intros [p H]. apply string_app_eq_app in H as [(m & -> & Hs)|(m & -> & Hs)].
    + destruct m as [|x m].
      * exfalso. apply Hc. exists "", s. exact (eq_sym Hs).
      * change (String c s = String x (m +:+ suffix)) in Hs.
        injection Hs as _ ->. now exists m.
    + exfalso. apply Hc. exists m, s. exact Hs.
  - intros [p ->]. exists (front +:+ String c p).
    rewrite string_app_assoc. reflexivity.
Qed.

Lemma no_equals_sign_in_suffixes :
  ~ contains "=" ".0.0" /\ ~ contains "=" ".0".
Proof.
  split; intros (front & back & H);
    repeat (destruct front as [|? front]; cbv in H;
            [discriminate | injection H as _ H]);
    destruct front; cbv in H; discriminate.
Qed.

End Suffixes.

(** X14: Only the last four characters decide: in front of a string of four
    characters or more, any prefix leaves the classification unchanged. *)
Theorem classify_ignores_prefix (front s : string) :
  (4 <= String.length s)%nat ->
  classify (front +:+ s) = classify s.
Proof.
  intros Hlen. apply classify_ext; apply has_suffix_app; cbn; lia.
Qed.

Lemma classify_ignores_prefix_v :
  classify ("v" +:+ "1.0.0") = classify "1.0.0".
Proof.
  refine (classify_ignores_prefix "v" "1.0.0" _). cbn. lia.
Defined.

(** X15: A string whose last character is not the digit zero is a [patch]:
    a pre-release tag or a trailing space after [x.0.0] is enough. *)
Theorem classify_last_character (s : string) (c : ascii) :
  c <> "0"%char ->
  classify (s +:+ String c "") = "patch".
Proof.
  intros Hc.
  assert (H : forall suffix, ~ has_suffix (suffix +:+ "0") (s +:+ String c "")).
  { intros suffix [p H]. rewrite <- string_app_assoc in H.
    assert (Hrev : forall a b x y, a +:+ String x "" = b +:+ String y "" -> x = y).
    { induction a as [|u a IH]; intros [|v b] x y E.
      - now injection E.
      - change (String x "" = String v (b +:+ String y "")) in E.
        injection E as _ E. destruct b; discriminate.
      - change (String u (a +:+ String x "") = String y "") in E.
        injection E as _ E. destruct a; discriminate.
      - change (String u (a +:+ String x "") = String v (b +:+ String y "")) in E.
        injection E as _ E. eauto. }
    apply Hrev in H. contradiction. }
  unfold classify.
  assert (JS.endsWith (s +:+ String c "") ".0.0" = false) as ->
    by (apply endsWith_false_iff, (H ".0.")).
  assert (JS.endsWith (s +:+ String c "") ".0" = false) as ->
    by (apply endsWith_false_iff, (H ".")).
  reflexivity.
Qed.

Lemma classify_last_character_space :
  classify ("1.0.0" +:+ String " "%char "") = "patch".
Proof.
  refine (classify_last_character "1.0.0" " "%char _). discriminate.
Defined.

(** ** The word that is classified *)

Lemma version_field_of_run (w : World) (config : request) (a : string) :
  axios config ∈ trace (main w) ->
  process_argv w !! 2%nat = Some a ->
  field "version" (data config) = Some (Text (classify a)).
Proof.
  intros Hin Ha.
  apply axios_sent in Hin as (values & chunks & a' & _ & _ & _ & Ha' & -> & _).
  assert (a' = a) as -> by congruence. reflexivity.
Qed.

(** X16: When the first word of the command line joins an option and a value
    with an equals sign, as in [--version=2.0.0], the request carries the
    classification of that value. *)
Theorem inline_first_word_is_classified (w : World) (config : request)
    (front value : string) :
  axios config ∈ trace (main w) ->
  process_argv w !! 2%nat = Some (front +:+ "=" +:+ value) ->
  field "version" (data config) = Some (Text (classify value)).
Proof.
  intros Hin Ha. rewrite (version_field_of_run w config _ Hin Ha).
  do 2 f_equal. destruct no_equals_sign_in_suffixes as [H1 H2].
  apply classify_ext; apply (has_suffix_separator _ front value "="%char); assumption.
Qed.

Lemma inlineVersion_sends :
  axios (uploadConfig (buildData "my-game" (concat zip.1) "major" None) (Some "secret"))
    ∈ trace (main inlineVersion).
Proof. do 3 apply list_elem_of_further. apply list_elem_of_here. Qed.

Lemma inline_first_word_is_classified_inlineVersion :
  field "version"
    (data (uploadConfig (buildData "my-game" (concat zip.1) "major" None)
                        (Some "secret")))
  = Some (Text (classify "2.0.0")).
Proof.
  exact (inline_first_word_is_classified inlineVersion _ "--version" "2.0.0"
           inlineVersion_sends eq_refl).
Defined.

(** ** The first word of the command line *)

Section FirstWord.

Lemma isStringOption_inv (name : string) :
  NodeUtil.isStringOption name = true ->
  name = "version" \/ name = "path" \/ name = "gameId" \/ name = "sdkVersion".
Proof.
  unfold NodeUtil.isStringOption, NodeUtil.options. intros H.
  apply bool_decide_eq_true in H. rewrite !elem_of_cons in H.
  destruct H as [H|[H|[H|[H|H]]]]; auto. inversion H.
Qed.

Lemma length_substring_le (n m : nat) (s : string) :
  (String.length (String.substring n m s) <= m)%nat.
Proof.
  revert n m. induction s as [|c s IH]; intros [|n] [|m]; cbn; try lia.
  - specialize (IH 0%nat m). lia.
  - apply (IH n 0%nat).
  - apply (IH n (S m)).
Qed.

Lemma short_name_is_unknown (arg : string) :
  NodeUtil.isStringOption (NodeUtil.charAt arg 1) = false.
Proof.
  destruct (NodeUtil.isStringOption (NodeUtil.charAt arg 1)) eqn:E; [|reflexivity].
  pose proof (length_substring_le 1 1 arg) as Hlen. fold (NodeUtil.charAt arg 1) in Hlen.
  apply isStringOption_inv in E as [E|[E|[E|E]]]; rewrite E in Hlen; cbn in Hlen; lia.
Qed.

Lemma length_substring_le_length (n m : nat) (s : string) :
  (String.length (String.substring n m s) <= String.length s)%nat.
Proof.
  revert n m. induction s as [|c s IH]; intros [|n] [|m]; cbn; try lia.
  - specialize (IH 0%nat m). lia.
  - specialize (IH n 0%nat). lia.
  - specialize (IH n (S m)). lia.
Qed.

Lemma prefix_split (p s : string) :
  String.prefix p s = true ->
  s = p +:+ String.substring (String.length p) (String.length s - String.length p) s.
Proof.
  intros H. apply String.prefix_correct in H.
  assert (Hlen : (String.length p <= String.length s)%nat).
  { pose proof (length_substring_le_length 0 (String.length p) s) as L.
    now rewrite H in L. }
  rewrite (substring_split s (String.length p) Hlen) at 1. now rewrite H.
Qed.

(** What [String.index] finds is an occurrence. *)
Lemma index_contains (n m : nat) (c : ascii) (s : string) :
  String.index n (String c "") s = Some m -> contains (String c "") s.
Proof.
  intros H. apply String.index_correct1 in H. cbn [String.length] in H.
  clear n. revert m H. induction s as [|x s IH]; intros [|m] H; cbn in H;
    try discriminate.
  - injection H as -> _. exists "", s. reflexivity.
  - destruct (IH m H) as (front & back & ->). exists (String x front), back. reflexivity.
Qed.

(** The first word of a command line that [parseArgs] accepts is the
    terminator, the name of a declared option, or an option joined to its
    value. *)
Lemma first_word_accepted (a : string) (rest : list string)
    (values : gmap string string) :
  NodeUtil.parseArgs (a :: rest) = inr values ->
  a = "--" \/
  (exists name, name ∈ NodeUtil.options /\ a = "--" +:+ name) \/
  contains "=" a.
Proof.
  unfold NodeUtil.parseArgs. cbn [NodeUtil.argsToTokens].
  destruct (String.eqb a "--") eqn:E1; [apply String.eqb_eq in E1; auto|].
  destruct (NodeUtil.isShortOption a) eqn:E2.
  { cbn [NodeUtil.storeTokens]. rewrite short_name_is_unknown. discriminate. }
  destruct (NodeUtil.isLoneLongOption a) eqn:E3.
  { unfold NodeUtil.isLoneLongOption in E3.
    apply andb_true_iff in E3 as [E3 _]. apply andb_true_iff in E3 as [_ E3].
    destruct (NodeUtil.isStringOption
                (String.substring 2 (String.length a - 2) a)) eqn:E4.
    - destruct rest as [|nextArg rest].
      + cbn [NodeUtil.storeTokens]. rewrite E4. discriminate.
      + intros _. right; left.
        exists (String.substring 2 (String.length a - 2) a). split.
        * unfold NodeUtil.isStringOption in E4. now apply bool_decide_eq_true in E4.
        * exact (prefix_split "--" a E3).
    - cbn [NodeUtil.storeTokens]. rewrite E4. discriminate. }
  destruct (NodeUtil.isLongOptionAndValue a) eqn:E5.
  { intros _. right; right.
    unfold NodeUtil.isLongOptionAndValue in E5. apply andb_true_iff in E5 as [_ E5].
    unfold NodeUtil.includesFrom in E5.
    destruct (String.index 3 "=" a) as [m|] eqn:E6; [|discriminate].
    exact (index_contains 3 m "="%char a E6). }
  cbn [NodeUtil.storeTokens]. discriminate.
Qed.

Lemma not_dashed (a : string) :
  JS.startsWith a "-" = false ->
  String.eqb a "--" = false /\ NodeUtil.isShortOption a = false /\
  NodeUtil.isLoneLongOption a = false /\ NodeUtil.isLongOptionAndValue a = false.
Proof.
  unfold JS.startsWith. destruct a as [|c a]; [intros _; repeat split|].
  cbn [String.prefix]. destruct (ascii_dec "-" c) as [|Hne]; [destruct a; discriminate|].
  intros _.
  assert (Hc : Ascii.eqb c "-" = false) by (apply Ascii.eqb_neq; congruence).
  unfold NodeUtil.isShortOption, NodeUtil.isLoneLongOption,
    NodeUtil.isLongOptionAndValue, JS.startsWith, NodeUtil.charAt.
  cbn [String.eqb String.prefix]. rewrite Hc.
  destruct (ascii_dec "-" c); [congruence|].
  rewrite !andb_false_r. cbn [andb].
  repeat split.
  change (String.substring 0 1 (String c a)) with (String c (String.substring 0 0 a)).
  cbn [String.eqb]. rewrite Hc. now rewrite andb_false_r.
Qed.

End FirstWord.

(** X18: A first word that does not start with a dash, as in
    [heyvr 1.0.0 my-game], makes [parseArgs] throw: the script prints no
    message and no usage, archives nothing and sends nothing. *)
Theorem positional_first_word_is_rejected (w : World) (node script a : string)
    (rest : list string) :
  process_argv w = node :: script :: a :: rest ->
  JS.startsWith a "-" = false ->
  main w = ([], Thrown (ERR_PARSE_ARGS_UNEXPECTED_POSITIONAL a)).
Proof.
  intros Hargv Ha. apply main_parse_error. rewrite Hargv. cbn [drop].
  destruct (not_dashed a Ha) as (E1 & E2 & E3 & E4).
  unfold NodeUtil.parseArgs. cbn [NodeUtil.argsToTokens].
  rewrite E1, E2, E3, E4. reflexivity.
Qed.

Lemma positional_first_word_is_rejected_positionalUsage :
  main positionalUsage = ([], Thrown (ERR_PARSE_ARGS_UNEXPECTED_POSITIONAL "1.0.0")).
Proof.
  exact (positional_first_word_is_rejected positionalUsage "node" "heyvr" "1.0.0"
           ["my-game"] eq_refl eq_refl).
Defined.

(** X17: When the first word holds no equals sign, as when every option is
    followed by its value in the next word, the first word is [--] or the
    name of an option, and the request carries [patch] whatever the value of
    [--version]. *)
Theorem separate_words_send_patch (w : World) (config : request) (a : string) :
  axios config ∈ trace (main w) ->
  process_argv w !! 2%nat = Some a ->
  ~ contains "=" a ->
  (a = "--" \/ a = "--version" \/ a = "--path" \/ a = "--gameId"
   \/ a = "--sdkVersion") /\
  field "version" (data config) = Some (Text "patch").
Proof.
  intros Hin Ha Hne. rewrite (version_field_of_run w config a Hin Ha).
  apply axios_sent in Hin as (values & _ & _ & Hp & _).
  unfold parsed in Hp. rewrite (drop_S _ _ _ Ha) in Hp.
  apply first_word_accepted in Hp as [->|[(name & Hname & ->)|Hc]];
    [split; [auto | reflexivity] | | contradiction].
  unfold NodeUtil.options in Hname. rewrite !elem_of_cons in Hname.
  destruct Hname as [->|[->|[->|[->|H]]]]; [| | | |inversion H];
    (split; [auto 6 | reflexivity]).
Qed.

Lemma separate_words_send_patch_documentedUsage :
  ("--version" = "--" \/ "--version" = "--version" \/ "--version" = "--path"
   \/ "--version" = "--gameId" \/ "--version" = "--sdkVersion") /\
  field "version" (data documentedRequest) = Some (Text "patch").
Proof.
  refine (separate_words_send_patch documentedUsage documentedRequest "--version"
            documentedUsage_sends eq_refl _).
  intros (front & back & H).
  repeat (destruct front as [|? front]; cbv in H;
          [discriminate | injection H as _ H]).
  destruct front; cbv in H; discriminate.
Defined.

(** ** Decimal SDK versions *)

Section Decimal.

Lemma trimStart_none (s : string) :
  JS.skipWhiteSpace s = None -> JS.trimStart s = s.
Proof.
  intros H. unfold JS.trimStart.
  destruct (String.length s); cbn [JS.trimStart_from]; [reflexivity | now rewrite H].
Qed.

(** A string without leading white space, sign or hexadecimal prefix is
    read as the decimal digits it starts with. *)
Lemma parseInt_plain (s : string) (z : Z) :
  JS.skipWhiteSpace s = None ->
  JS.startsWith s "-" = false -> JS.startsWith s "+" = false ->
  JS.startsWith s "0x" = false -> JS.startsWith s "0X" = false ->
  JS.readDigits 10 s None = Some z ->
  JS.parseInt (JS.VString s) = JS.toNumber z.
Proof.
  intros Hws Hminus Hplus Hx HX Hd. unfold JS.parseInt. cbn [JS.ToString].
  rewrite (trimStart_none s Hws), Hminus, Hplus. cbn [orb].
  rewrite Hx, HX. cbn [orb]. rewrite Hd. f_equal. lia.
Qed.

(** Below 2^53 an integer is its own Number value. *)
Lemma toNumber_small (z : Z) :
  Z.abs z < 9007199254740992 -> JS.toNumber z = JS.Num z.
Proof.
  intros H. unfold JS.toNumber.
  destruct (Z.ltb_spec (Z.abs z) 9007199254740992); [reflexivity | lia].
Qed.

Lemma readDigits_uint (d : Decimal.uint) (acc : nat) :
  JS.readDigits 10 (NilEmpty.string_of_uint d) (Some (Z.of_nat acc))
  = Some (Z.of_nat (Nat.of_uint_acc d acc)).
Proof.
  revert acc. induction d as [|d IH|d IH|d IH|d IH|d IH|d IH|d IH|d IH|d IH|d IH];
    intros acc; [reflexivity| ..];
    cbn [NilEmpty.string_of_uint JS.readDigits Nat.of_uint_acc];
    match goal with
    | |- context [JS.digitValue 10 ?c] =>
      let v := eval vm_compute in (JS.digitValue 10 c) in
      change (JS.digitValue 10 c) with v
    end;
    cbv iota beta; rewrite <- IH; do 2 f_equal;
    rewrite Nat.tail_mul_spec; lia.
Qed.

Lemma readDigits_uint_start (d : Decimal.uint) :
  d <> Decimal.Nil ->
  JS.readDigits 10 (NilEmpty.string_of_uint d) None = Some (Z.of_nat (Nat.of_uint d)).
Proof.
  intros Hd. unfold Nat.of_uint.
  destruct d; [contradiction| ..];
    cbn [NilEmpty.string_of_uint JS.readDigits Nat.of_uint_acc];
    match goal with
    | |- context [JS.digitValue 10 ?c] =>
      let v := eval vm_compute in (JS.digitValue 10 c) in
      change (JS.digitValue 10 c) with v
    end;
    cbv iota beta;
    match goal with
    | |- JS.readDigits 10 _ (Some ?k) = _ =>
      change k with (Z.of_nat (Z.to_nat k))
    end;
    rewrite readDigits_uint; reflexivity.
Qed.

Lemma uint_string_is_plain (d : Decimal.uint) :
  d <> Decimal.Nil ->
  let s := NilEmpty.string_of_uint d in
  JS.skipWhiteSpace s = None /\
  JS.startsWith s "-" = false /\ JS.startsWith s "+" = false /\
  JS.startsWith s "0x" = false /\ JS.startsWith s "0X" = false.
Proof.
  intros Hd. destruct d as [|d|d|d|d|d|d|d|d|d|d]; [contradiction| ..];
    cbn [NilEmpty.string_of_uint]; cbv zeta;
    (split; [destruct (NilEmpty.string_of_uint d) as [|? [|? ?]]; reflexivity|]);
    repeat split; try reflexivity;
    destruct d; reflexivity.
Qed.

(** [parseInt] reads back the decimal numeral that [ToString] writes, as
    long as the number is below 2^53. *)
Lemma parseInt_nat_to_string (n : nat) :
  Z.of_nat n < 9007199254740992 ->
  JS.parseInt (JS.VString (JS.nat_to_string n)) = JS.Num (Z.of_nat n).
Proof.
  intros Hsmall. rewrite <- (toNumber_small (Z.of_nat n)) by lia.
  unfold JS.nat_to_string. pose proof (Unsigned.of_to n) as Hn.
  destruct (Nat.to_uint n) as [|d|d|d|d|d|d|d|d|d|d] eqn:E;
    [cbn in Hn; subst n; reflexivity| ..];
    cbn [NilZero.string_of_uint]; rewrite <- Hn;
    match goal with
    | |- JS.parseInt (JS.VString (NilEmpty.string_of_uint ?u)) = _ =>
      assert (Hu : u <> Decimal.Nil) by discriminate;
      destruct (uint_string_is_plain u Hu) as (H1 & H2 & H3 & H4 & H5);
      apply parseInt_plain; auto using readDigits_uint_start
    end.
Qed.

Lemma nat_to_string_not_empty (n : nat) : JS.nat_to_string n <> "".
Proof.
  unfold JS.nat_to_string. destruct (Nat.to_uint n); discriminate.
Qed.

End Decimal.

(** X19: When the value of [--sdkVersion] is the decimal numeral of a natural
    number below 2^53, the request carries that number as [sdk_version].
    (From 2^53 on the field is the nearest double: [parseInt_examples].) *)
Theorem decimal_sdk_version_is_sent (w : World) (values : gmap string string)
    (config : request) (n : nat) :
  Z.of_nat n < 9007199254740992 ->
  parsed w values ->
  values !! "sdkVersion" = Some (JS.nat_to_string n) ->
  axios config ∈ trace (main w) ->
  field "sdk_version" (data config) = Some (Numeric (JS.Num (Z.of_nat n))).
Proof.
  intros Hsmall Hp Hs Hin.
  apply axios_sent in Hin as (values' & chunks & a & Hp' & _ & _ & _ & -> & _).
  assert (values' = values) as -> by (unfold parsed in *; congruence).
  cbn [uploadConfig data buildData field String.eqb Ascii.eqb Bool.eqb].
  rewrite Hs. unfold sdkVersionOrDefault. cbn [JS.truthy default].
  pose proof (nat_to_string_not_empty n) as Hne. apply String.eqb_neq in Hne.
  rewrite Hne. cbn [negb id]. now rewrite parseInt_nat_to_string.
Qed.

Lemma sdkVersionTwo_sends :
  axios (uploadConfig (buildData "my-game" (concat zip.1) "patch" (Some "2"))
                      (Some "secret"))
    ∈ trace (main sdkVersionTwo).
Proof. do 3 apply list_elem_of_further. apply list_elem_of_here. Qed.

Lemma decimal_sdk_version_is_sent_sdkVersionTwo :
  field "sdk_version"
    (data (uploadConfig (buildData "my-game" (concat zip.1) "patch" (Some "2"))
                        (Some "secret")))
  = Some (Numeric (JS.Num (Z.of_nat 2))).
Proof.
  refine (decimal_sdk_version_is_sent sdkVersionTwo
            (<["sdkVersion" := "2"]>
               (<["gameId" := "my-game"]> (<["version" := "1.2.3"]> ∅)))
            _ 2 _ eq_refl eq_refl sdkVersionTwo_sends).
  reflexivity.
Defined.

(** ** Where a refusal is reported *)

(** X7: A response from 201 to 299 goes through the first handler, which writes
    the status and the body to standard output and nothing to standard
    error; any other status but 200 goes through the second handler, which
    writes the error and the status text to standard error. *)
Theorem refused_upload_channel (w : World) (config : request)
    (status : nat) (statusText body : string) :
  axios config ∈ trace (main w) ->
  server w config = response status statusText body ->
  status <> 200%nat ->
  if (200 <=? status)%nat && (status <? 300)%nat
  then stderr (trace (main w)) = [] /\
       ["Upload failed with code"; JS.nat_to_string status] ∈ stdout (trace (main w))
  else stderr (trace (main w)) =
         [ ["Request failed with error:"];
           ["AxiosError: Request failed with status code " +:+ JS.nat_to_string status;
            "(" +:+ statusText +:+ ")"] ].
Proof.
  intros Hin Hs Hne.
  destruct (upload_run w config Hin) as (l1 & l2 & path & -> & _).
  destruct (refused_exchange w config status statusText body Hs Hne) as [-> _].
  rewrite !stderr_app, !stdout_app, stderr_progressLines. cbn [settled].
  assert ((status =? 200)%nat = false) as -> by now apply Nat.eqb_neq.
  destruct ((200 <=? status)%nat && (status <? 300)%nat); [split|]; try reflexivity.
  rewrite !elem_of_app. right; right. apply list_elem_of_here.
Qed.

Lemma refused_upload_channel_unauthorized :
  stderr (trace (main unauthorized)) =
    [ ["Request failed with error:"];
      ["AxiosError: Request failed with status code " +:+ JS.nat_to_string 401;
       "(" +:+ "Unauthorized" +:+ ")"] ].
Proof.
  refine (refused_upload_channel unauthorized _ 401 "Unauthorized" "Unauthenticated."
            unauthorized_sends eq_refl _).
  discriminate.
Defined.
